(** * The Magic wallet widget ([src/App.tsx])

    A shallow embedding of the module top level, of the three asynchronous
    handlers of the [App] component ([connectWallet], [logout] and the
    [checkLoginStatus] function of the mount effect), of the JSX the
    component returns, and of the browser event loop that interleaves
    them.

    The handlers are written in a small free monad [Flow] whose nodes are
    the effects the source performs: awaiting a promise of the Magic SDK or
    of the ethers provider, calling a state setter, [console.error],
    registering the logged-out callback and reading the [isMounted] flag of
    the effect's closure.  [try]/[catch]/[finally] are combinators over
    that monad. *)

From Stdlib Require Import String List Bool Arith Lia.
From ExtLib Require Import Structures.Monad Structures.MonadExc.
Import ListNotations.
Import MonadNotation.
Local Open Scope string_scope.
Local Open Scope list_scope.
Local Open Scope monad_scope.

Set Implicit Arguments.

(** ** Values *)

(** What the [account] cell can hold at run time.  Its declared type is
    [string | null]; [accounts[0]] of an empty array is [undefined]. *)
Inductive JsVal : Type :=
| JNull
| JUndefined
| JStr (s : string).

(** JavaScript truthiness, as used by [account && ...] and [account ? ... : ...]. *)
Definition truthy (v : JsVal) : bool :=
  match v with
  | JNull | JUndefined => false
  | JStr s => negb (String.eqb s "")
  end.

(** [accounts[i]] on a JavaScript array of strings. *)
Definition js_index (accounts : list string) (i : nat) : JsVal :=
  match nth_error accounts i with
  | Some a => JStr a
  | None => JUndefined
  end.

(** A thrown value: [new Error(message)], or whatever a promise rejects with. *)
Inductive JsError : Type :=
| Error (message : string).

(** The record [magic.user.getInfo()] resolves with. *)
Record UserInfo : Type := { publicAddress : string }.

(** The object [provider.getSigner()] resolves with. *)
Record Signer : Type := { address : string }.

(** ** Module top level (lines 7-19) *)

Module Startup.

(** [process.env], as far as the module reads it. *)
Record Env : Type := { REACT_APP_MAGIC_API_KEY : option string }.

(** [!process.env.REACT_APP_MAGIC_API_KEY]: [undefined] and the empty
    string are falsy. *)
Definition key_missing (env : Env) : bool :=
  match REACT_APP_MAGIC_API_KEY env with
  | None => true
  | Some k => String.eqb k ""
  end.

(** What evaluating the module does, in order. *)
Inductive InitEffect : Type :=
| NewMagic (apiKey : string) (useStorageCache : bool)
| NewBrowserProvider
| DefineApp
| ExportDefaultApp.

(** Result of evaluating the module: the effects performed, and the
    error thrown, if any. *)
Record InitResult : Type :=
  { performed : list InitEffect;
    thrown : option JsError }.

(** The string handed to [new Magic(...)] once the guard has passed. *)
Definition key_value (env : Env) : string :=
  match REACT_APP_MAGIC_API_KEY env with
  | Some k => k
  | None => ""
  end.

Definition moduleInit (env : Env) : InitResult :=
  if key_missing env then
    {| performed := [];
       thrown := Some (Error "REACT_APP_MAGIC_API_KEY is required.") |}
  else
    {| performed := [NewMagic (key_value env) true; NewBrowserProvider;
                     DefineApp; ExportDefaultApp];
       thrown := None |}.

(** The component can be rendered only once the module has exported it. *)
Definition app_available (r : InitResult) : bool :=
  existsb (fun e => match e with ExportDefaultApp => true | _ => false end)
          (performed r).

Definition client_constructed (r : InitResult) : bool :=
  existsb (fun e => match e with
                    | NewMagic _ _ | NewBrowserProvider => true
                    | _ => false
                    end)
          (performed r).

End Startup.

(** ** Component state *)

Record UiState : Type :=
  { account : JsVal;
    loading : bool }.

(** [useState<string | null>(null)] and [useState(true)]. *)
Definition initialState : UiState :=
  {| account := JNull; loading := true |}.

(** A call of one of the two state setters. *)
Inductive SetterCall : Type :=
| CallSetAccount (v : JsVal)
| CallSetLoading (b : bool).

Definition applySetter (c : SetterCall) (s : UiState) : UiState :=
  match c with
  | CallSetAccount v => {| account := v; loading := loading s |}
  | CallSetLoading b => {| account := account s; loading := b |}
  end.

(** The function passed to [magic.user.onUserLoggedOut]: synchronous code
    that calls setters. *)
Definition LogoutCallback : Type := bool -> list SetterCall.

(** ** Asynchronous flows *)

(** The promises the component awaits, indexed by what they resolve with. *)
Inductive SdkCall : Type -> Type :=
| IsLoggedIn : SdkCall bool            (* magic.user.isLoggedIn() *)
| GetInfo : SdkCall UserInfo           (* magic.user.getInfo() *)
| GetSigner : SdkCall Signer           (* provider.getSigner() *)
| ConnectWithUI : SdkCall (list string) (* magic.wallet.connectWithUI() *)
| Logout : SdkCall bool.               (* magic.user.logout() *)

Inductive Outcome (R : Type) : Type :=
| Resolved (v : R)
| Rejected (e : JsError).

Arguments Rejected {R} e.

Inductive Flow (A : Type) : Type :=
| Ret (a : A)
| Throw (e : JsError)
| Await (R : Type) (c : SdkCall R) (k : Outcome R -> Flow A)
| SetAccount (v : JsVal) (k : Flow A)
| SetLoading (b : bool) (k : Flow A)
| ConsoleError (msg : string) (e : JsError) (k : Flow A)
| OnUserLoggedOut (cb : LogoutCallback) (k : Flow A)
| ReadMounted (k : bool -> Flow A).

Arguments Throw {A} e.

Fixpoint flow_bind {A B : Type} (m : Flow A) (f : A -> Flow B) : Flow B :=
  match m with
  | Ret a => f a
  | Throw e => Throw e
  | Await c k => Await c (fun o => flow_bind (k o) f)
  | SetAccount v k => SetAccount v (flow_bind k f)
  | SetLoading b k => SetLoading b (flow_bind k f)
  | ConsoleError msg e k => ConsoleError msg e (flow_bind k f)
  | OnUserLoggedOut cb k => OnUserLoggedOut cb (flow_bind k f)
  | ReadMounted k => ReadMounted (fun b => flow_bind (k b) f)
  end.

(** [try { body } catch (error) { handler }] *)
Fixpoint try_catch {A : Type} (body : Flow A) (handler : JsError -> Flow A) : Flow A :=
  match body with
  | Ret a => Ret a
  | Throw e => handler e
  | Await c k => Await c (fun o => try_catch (k o) handler)
  | SetAccount v k => SetAccount v (try_catch k handler)
  | SetLoading b k => SetLoading b (try_catch k handler)
  | ConsoleError msg e k => ConsoleError msg e (try_catch k handler)
  | OnUserLoggedOut cb k => OnUserLoggedOut cb (try_catch k handler)
  | ReadMounted k => ReadMounted (fun b => try_catch (k b) handler)
  end.

(** [try { body } finally { fin }]: [fin] runs on both exits, and a thrown
    error goes on propagating after it. *)
Fixpoint try_finally {A : Type} (body : Flow A) (fin : Flow unit) : Flow A :=
  match body with
  | Ret a => flow_bind fin (fun _ => Ret a)
  | Throw e => flow_bind fin (fun _ => Throw e)
  | Await c k => Await c (fun o => try_finally (k o) fin)
  | SetAccount v k => SetAccount v (try_finally k fin)
  | SetLoading b k => SetLoading b (try_finally k fin)
  | ConsoleError msg e k => ConsoleError msg e (try_finally k fin)
  | OnUserLoggedOut cb k => OnUserLoggedOut cb (try_finally k fin)
  | ReadMounted k => ReadMounted (fun b => try_finally (k b) fin)
  end.

#[global] Instance Monad_Flow : Monad Flow :=
  { ret := @Ret; bind := @flow_bind }.

#[global] Instance Exc_Flow : MonadExc JsError Flow :=
  { raise := @Throw; catch := @try_catch }.

(** [await p]: a rejected promise throws at the [await]. *)
Definition await {R : Type} (c : SdkCall R) : Flow R :=
  Await c (fun o => match o with
                    | Resolved v => Ret v
                    | Rejected e => Throw e
                    end).

Definition setAccount (v : JsVal) : Flow unit := SetAccount v (Ret tt).
Definition setLoading (b : bool) : Flow unit := SetLoading b (Ret tt).
Definition consoleError (msg : string) (e : JsError) : Flow unit :=
  ConsoleError msg e (Ret tt).
Definition onUserLoggedOut (cb : LogoutCallback) : Flow unit :=
  OnUserLoggedOut cb (Ret tt).
Definition isMountedFlag : Flow bool := ReadMounted (fun b => Ret b).

(** [if (c) { body }] *)
Definition when (c : bool) (body : Flow unit) : Flow unit :=
  if c then body else Ret tt.

(** *** [connectWallet] (lines 29-39) *)
Definition connectWallet : Flow unit :=
  try_catch
    (accounts <- await ConnectWithUI ;;
     setAccount (js_index accounts 0))
    (fun error => consoleError "Connection failed" error).

(** The callback of lines 45-50. *)
Definition loggedOutCallback : LogoutCallback :=
  fun isLoggedOut => if isLoggedOut then [CallSetAccount JNull] else [].

(** *** [logout] (lines 42-61) *)
Definition logout : Flow unit :=
  try_catch
    (onUserLoggedOut loggedOutCallback ;;
     _ <- await Logout ;;
     ret tt)
    (fun error => consoleError "Logout failed" error).

(** *** [checkLoginStatus] (lines 69-101) *)
Definition checkLoginStatus : Flow unit :=
  try_finally
    (try_catch
       (isLoggedIn <- await IsLoggedIn ;;
        when isLoggedIn
          (user <- await GetInfo ;;
           signer <- await GetSigner ;;
           when (negb (String.eqb (publicAddress user) (address signer)))
             (raise (Error "User address does not match signer address")) ;;
           isMounted <- isMountedFlag ;;
           when isMounted (setAccount (JStr (publicAddress user)))))
       (fun error => consoleError "Failed to check login status" error))
    (isMounted <- isMountedFlag ;;
     when isMounted (setLoading false)).

(** ** Rendering (lines 112-134) *)

Inductive Handler : Type :=
| HConnectWallet
| HLogout.

Definition Handler_eqb (a b : Handler) : bool :=
  match a, b with
  | HConnectWallet, HConnectWallet | HLogout, HLogout => true
  | _, _ => false
  end.

#[warnings="-register-all"]
Inductive Node : Type :=
| Elem (tag : string) (className : option string) (onClick : option Handler)
       (children : list Node)
| Text (s : string).

(** [{account}] inside JSX text, where [account] is truthy. *)
Definition jsText (v : JsVal) : string :=
  match v with
  | JStr s => s
  | _ => ""
  end.

Definition render (s : UiState) : Node :=
  Elem "div" (Some "main") None
    [ Elem "header" (Some "header") None
        (Elem "span" None None [Text "Magic test"]
         :: (if truthy (account s)
             then [Elem "button" (Some "button") (Some HLogout) [Text "Disconetti"]]
             else []));
      Elem "main" (Some "main-content") None
        [ if loading s then
            Elem "p" None None [Text "Caricamento..."]
          else if truthy (account s) then
            Elem "p" None None [Text "Account Address: "; Text (jsText (account s))]
          else
            Elem "button" (Some "button") (Some HConnectWallet) [Text "Connetti Wallet"] ] ].

(** The click handlers attached somewhere in a tree. *)
Fixpoint clickable (n : Node) : list Handler :=
  match n with
  | Elem _ _ onClick children =>
      match onClick with
      | Some h => [h]
      | None => []
      end ++ flat_map clickable children
  | Text _ => []
  end.

(** Does some node of the tree satisfy [p]? *)
Fixpoint contains (p : Node -> bool) (n : Node) : bool :=
  p n ||
  match n with
  | Elem _ _ _ children => existsb (contains p) children
  | Text _ => false
  end.

Definition offers (h : Handler) (n : Node) : bool :=
  existsb (Handler_eqb h) (clickable n).

(** [<p>Caricamento...</p>] *)
Definition isLoadingIndicator (n : Node) : bool :=
  match n with
  | Elem tag None None [Text t] => String.eqb tag "p" && String.eqb t "Caricamento..."
  | _ => false
  end.

(** [<p>Account Address: {a}</p>] *)
Definition isAddressLine (n : Node) : option string :=
  match n with
  | Elem tag None None [Text t; Text a] =>
      if String.eqb tag "p" && String.eqb t "Account Address: " then Some a else None
  | _ => None
  end.

Definition showsDisconnect (n : Node) : bool := offers HLogout n.
Definition showsConnect (n : Node) : bool := offers HConnectWallet n.
Definition showsLoadingIndicator (n : Node) : bool := contains isLoadingIndicator n.
Definition showsAddressLine (n : Node) : bool :=
  contains (fun m => match isAddressLine m with Some _ => true | None => false end) n.

(** The addresses printed by the address lines of a tree, in document
    order. *)
Fixpoint addressLines (n : Node) : list string :=
  match isAddressLine n with
  | Some a => [a]
  | None => []
  end ++
  match n with
  | Elem _ _ _ children => flat_map addressLines children
  | Text _ => []
  end.

(** The three views of the specification's state machine, read off the
    state the way the specification words it: [Loading] while [loading]
    holds, otherwise [Connected] when an account is present and
    [Disconnected] when there is none. *)
Inductive View : Type :=
| Loading
| Connected
| Disconnected.

Definition specView (s : UiState) : View :=
  if loading s then Loading
  else match account s with
       | JStr _ => Connected
       | JNull | JUndefined => Disconnected
       end.

(** ** The event loop *)

(** Which piece of source code a setter call or a suspended flow belongs to. *)
Inductive Origin : Type :=
| FromCheckLoginStatus
| FromConnectWallet
| FromLogout
| FromLoggedOutCallback.

Definition Origin_eqb (a b : Origin) : bool :=
  match a, b with
  | FromCheckLoginStatus, FromCheckLoginStatus
  | FromConnectWallet, FromConnectWallet
  | FromLogout, FromLogout
  | FromLoggedOutCallback, FromLoggedOutCallback => true
  | _, _ => false
  end.

(** One entry of a spy on the two state setters: who called which setter,
    and the value of [isMounted] at the time of the call. *)
Record SpyEntry : Type :=
  { spyOrigin : Origin;
    spyCall : SetterCall;
    spyMounted : bool }.

(** A flow parked at an [await], with the rest of its body. *)
Inductive Suspended : Type :=
| Susp (origin : Origin) (R : Type) (c : SdkCall R) (k : Outcome R -> Flow unit).

Definition suspOrigin (p : Suspended) : Origin :=
  match p with Susp o _ _ => o end.

Inductive IssuedCall : Type :=
| Call (R : Type) (c : SdkCall R).

Record World : Type :=
  { ui : UiState;                          (* the two useState cells *)
    isMounted : bool;                      (* the flag of the effect's closure *)
    pending : list Suspended;              (* flows waiting for a promise *)
    callbacks : list LogoutCallback;       (* registered with onUserLoggedOut *)
    console : list (string * JsError);     (* console.error output *)
    issued : list IssuedCall;              (* SDK calls made so far *)
    spy : list SpyEntry;                   (* setter calls made so far *)
    unhandled : list JsError }.            (* rejections nobody caught *)

(** A setter call is recorded by the spy and stored in the cell.  What
    React does with an update that arrives after unmount is outside the
    repository; the spy entry keeps the flag so that such calls can be
    told apart. *)
Definition callSetter (o : Origin) (c : SetterCall) (w : World) : World :=
  {| ui := applySetter c (ui w);
     isMounted := isMounted w;
     pending := pending w;
     callbacks := callbacks w;
     console := console w;
     issued := issued w;
     spy := spy w ++ [{| spyOrigin := o; spyCall := c; spyMounted := isMounted w |}];
     unhandled := unhandled w |}.

Definition logError (msg : string) (e : JsError) (w : World) : World :=
  {| ui := ui w;
     isMounted := isMounted w;
     pending := pending w;
     callbacks := callbacks w;
     console := console w ++ [(msg, e)];
     issued := issued w;
     spy := spy w;
     unhandled := unhandled w |}.

Definition register (cb : LogoutCallback) (w : World) : World :=
  {| ui := ui w;
     isMounted := isMounted w;
     pending := pending w;
     callbacks := callbacks w ++ [cb];
     console := console w;
     issued := issued w;
     spy := spy w;
     unhandled := unhandled w |}.

Definition suspend (o : Origin) {R : Type} (c : SdkCall R)
           (k : Outcome R -> Flow unit) (w : World) : World :=
  {| ui := ui w;
     isMounted := isMounted w;
     pending := pending w ++ [Susp o c k];
     callbacks := callbacks w;
     console := console w;
     issued := issued w ++ [Call c];
     spy := spy w;
     unhandled := unhandled w |}.

Definition uncaught (e : JsError) (w : World) : World :=
  {| ui := ui w;
     isMounted := isMounted w;
     pending := pending w;
     callbacks := callbacks w;
     console := console w;
     issued := issued w;
     spy := spy w;
     unhandled := unhandled w ++ [e] |}.

Definition setPending (ps : list Suspended) (w : World) : World :=
  {| ui := ui w;
     isMounted := isMounted w;
     pending := ps;
     callbacks := callbacks w;
     console := console w;
     issued := issued w;
     spy := spy w;
     unhandled := unhandled w |}.

(** The cleanup function of the effect: [isMounted = false]. *)
Definition cleanup (w : World) : World :=
  {| ui := ui w;
     isMounted := false;
     pending := pending w;
     callbacks := callbacks w;
     console := console w;
     issued := issued w;
     spy := spy w;
     unhandled := unhandled w |}.

(** Run a flow until it finishes or reaches its next [await]: one
    uninterrupted turn of the event loop. *)
Fixpoint run_sync (o : Origin) (f : Flow unit) (w : World) : World :=
  match f with
  | Ret _ => w
  | Throw e => uncaught e w
  | Await c k => suspend o c k w
  | SetAccount v k => run_sync o k (callSetter o (CallSetAccount v) w)
  | SetLoading b k => run_sync o k (callSetter o (CallSetLoading b) w)
  | ConsoleError msg e k => run_sync o k (logError msg e w)
  | OnUserLoggedOut cb k => run_sync o k (register cb w)
  | ReadMounted k => run_sync o (k (isMounted w)) w
  end.

(** What a promise settles with, before it is matched against the call
    it answers. *)
Inductive Response : Type :=
| RespBool (b : bool)
| RespInfo (u : UserInfo)
| RespSigner (s : Signer)
| RespAccounts (l : list string)
| RespReject (e : JsError).

Definition decode {R : Type} (c : SdkCall R) (r : Response) : option (Outcome R) :=
  match c in SdkCall T return option (Outcome T) with
  | IsLoggedIn =>
      match r with
      | RespBool b => Some (Resolved b)
      | RespReject e => Some (Rejected e)
      | _ => None
      end
  | GetInfo =>
      match r with
      | RespInfo u => Some (Resolved u)
      | RespReject e => Some (Rejected e)
      | _ => None
      end
  | GetSigner =>
      match r with
      | RespSigner s => Some (Resolved s)
      | RespReject e => Some (Rejected e)
      | _ => None
      end
  | ConnectWithUI =>
      match r with
      | RespAccounts l => Some (Resolved l)
      | RespReject e => Some (Rejected e)
      | _ => None
      end
  | Logout =>
      match r with
      | RespBool b => Some (Resolved b)
      | RespReject e => Some (Rejected e)
      | _ => None
      end
  end.

Definition remove_nth {A : Type} (i : nat) (l : list A) : list A :=
  firstn i l ++ skipn (S i) l.

Inductive Event : Type :=
| EvSettle (i : nat) (r : Response)   (* the i-th pending promise settles *)
| EvClick (h : Handler)               (* the user clicks a rendered button *)
| EvUnmount                           (* React unmounts the component *)
| EvUserLoggedOut (b : bool).         (* the SDK fires the logged-out callbacks *)

Definition handlerOrigin (h : Handler) : Origin :=
  match h with
  | HConnectWallet => FromConnectWallet
  | HLogout => FromLogout
  end.

Definition handlerFlow (h : Handler) : Flow unit :=
  match h with
  | HConnectWallet => connectWallet
  | HLogout => logout
  end.

Definition settle (i : nat) (r : Response) (w : World) : World :=
  match nth_error (pending w) i with
  | Some (Susp o c k) =>
      match decode c r with
      | Some out => run_sync o (k out) (setPending (remove_nth i (pending w)) w)
      | None => w
      end
  | None => w
  end.

(** A button can be clicked only while the component is on screen and
    renders that button. *)
Definition click (h : Handler) (w : World) : World :=
  if isMounted w && offers h (render (ui w))
  then run_sync (handlerOrigin h) (handlerFlow h) w
  else w.

(** Invoke each callback of [cbs] with [b], in registration order. *)
Definition fireAll (b : bool) (cbs : list LogoutCallback) (w : World) : World :=
  fold_left
    (fun w' cb =>
       fold_left (fun w'' c => callSetter FromLoggedOutCallback c w'') (cb b) w')
    cbs w.

Definition fireLoggedOut (b : bool) (w : World) : World :=
  fireAll b (callbacks w) w.

Definition step (e : Event) (w : World) : World :=
  match e with
  | EvSettle i r => settle i r w
  | EvClick h => click h w
  | EvUnmount => cleanup w
  | EvUserLoggedOut b => fireLoggedOut b w
  end.

Definition run (evs : list Event) (w : World) : World :=
  fold_left (fun w' e => step e w') evs w.

(** The component before its effect has run. *)
Definition freshWorld : World :=
  {| ui := initialState;
     isMounted := true;
     pending := [];
     callbacks := [];
     console := [];
     issued := [];
     spy := [];
     unhandled := [] |}.

(** The effect body of lines 64-110: [isMounted = true], then
    [checkLoginStatus()]. *)
Definition mountWorld : World :=
  run_sync FromCheckLoginStatus checkLoginStatus freshWorld.

(** ** The mount-guard discipline *)

(** How much a turn knows about [isMounted]: the flag has not been read
    since the last [await] ([Unread]); it has been read and was true, and
    no setter has been called since ([Live]); a setter has been called under
    that knowledge ([Wrote]). *)
Inductive Mode : Type :=
| Unread
| Live
| Wrote.

(** A flow is guarded when every setter call sits behind a read of
    [isMounted] that returned true in the same turn, when it registers no
    callback, and when it does not [await] again after a setter call. *)
Inductive Guarded : Mode -> Flow unit -> Prop :=
| G_Ret m a : Guarded m (Ret a)
| G_Throw m e : Guarded m (Throw e)
| G_Await m R (c : SdkCall R) k :
    m <> Wrote ->
    (forall out, Guarded Unread (k out)) ->
    Guarded m (Await c k)
| G_SetAccount m v k :
    m <> Unread -> Guarded Wrote k -> Guarded m (SetAccount v k)
| G_SetLoading m b k :
    m <> Unread -> Guarded Wrote k -> Guarded m (SetLoading b k)
| G_ConsoleError m msg e k :
    Guarded m k -> Guarded m (ConsoleError msg e k)
| G_ReadUnread k :
    Guarded Unread (k false) -> Guarded Live (k true) ->
    Guarded Unread (ReadMounted k)
| G_ReadKnown m k :
    m <> Unread -> Guarded m (k true) -> Guarded m (ReadMounted k).

Definition GuardedSusp (p : Suspended) : Prop :=
  match p with
  | Susp _ _ k => forall out, Guarded Unread (k out)
  end.

Definition fromCheck (o : Origin) : Prop := o = FromCheckLoginStatus.

(** Is the session check still parked at one of its [await]s? *)
Definition checkPending (w : World) : bool :=
  existsb (fun p => Origin_eqb (suspOrigin p) FromCheckLoginStatus) (pending w).

(** Every setter call made by [checkLoginStatus] found the flag set. *)
Definition checkCallsGuarded (w : World) : Prop :=
  Forall (fun e => fromCheck (spyOrigin e) -> spyMounted e = true) (spy w).

(** ** Invariants and scenarios *)

(** Parked flows of [checkLoginStatus] are guarded, and its setter calls
    so far found the flag set. *)
Definition GuardInv (w : World) : Prop :=
  Forall (fun p => fromCheck (suspOrigin p) -> GuardedSusp p) (pending w) /\
  checkCallsGuarded w.

(** While the session check is parked nothing else has happened: the spy
    is empty, both cells hold their initial values, no callback is
    registered, and the check is the only parked flow. *)
Definition OnlyCheck (w : World) : Prop :=
  spy w = [] /\
  ui w = initialState /\
  callbacks w = [] /\
  (pending w = [] \/
   exists p, pending w = [p] /\ GuardedSusp p /\
             suspOrigin p = FromCheckLoginStatus).

(** The session check is parked no longer. *)
Definition CheckOver (w : World) : Prop :=
  Forall (fun p => suspOrigin p <> FromCheckLoginStatus) (pending w).

(** Every setter call, of whatever origin, found the flag set. *)
Definition allCallsGuarded (w : World) : bool :=
  forallb spyMounted (spy w).

(** The session check with a session present: [isLoggedIn] resolves with
    [true], then [getInfo] with [u], then [getSigner] with [s]. *)
Definition sessionCheckRun (u : UserInfo) (s : Signer) : World :=
  run [EvSettle 0 (RespBool true); EvSettle 0 (RespInfo u); EvSettle 0 (RespSigner s)]
      mountWorld.

(** A component connected by a successful session check. *)
Definition connectedWorld : World :=
  sessionCheckRun {| publicAddress := "0xABC" |} {| address := "0xABC" |}.

(** One constructor of [Guarded], chosen by the shape of the flow. *)
Ltac guard_step :=
  first
    [ apply G_Ret
    | apply G_Throw
    | apply G_ConsoleError
    | apply G_ReadUnread
    | apply G_ReadKnown; [discriminate |]
    | apply G_SetAccount; [discriminate |]
    | apply G_SetLoading; [discriminate |]
    | apply G_Await; [discriminate | intros [? | ?]; cbn -[String.eqb]]
    | match goal with
      | |- context [if ?b then _ else _] => destruct b; cbn -[String.eqb]
      end ].

(** ** How turns end *)

Definition isLogoutCall {R : Type} (c : SdkCall R) : bool :=
  match c with
  | Logout => true
  | _ => false
  end.

(** How many times [magic.user.logout()] has been called. *)
Definition logoutCalls (l : list IssuedCall) : nat :=
  length (filter (fun i => match i with Call c => isLogoutCall c end) l).

(** What is left of [connectWallet] and of [logout] once their promise
    has settled: [setAccount] and [console.error], then the end. *)
Inductive Quiet : Flow unit -> Prop :=
| Q_Ret a : Quiet (Ret a)
| Q_SetAccount v k : Quiet k -> Quiet (SetAccount v k)
| Q_ConsoleError msg e k : Quiet k -> Quiet (ConsoleError msg e k).

(** Where a turn of the session check stands: the flag not yet read
    ([Blind]); read and false ([Dead]); read and true ([Alive]); the
    account stored under a true flag ([Stored]); [loading] cleared
    ([Cleared]). *)
Inductive Phase : Type :=
| Blind
| Dead
| Alive
| Stored
| Cleared.

(** The shape of [checkLoginStatus]: it awaits only before reading the
    flag, never throws past its handler, never calls [logout], and ends
    either with [loading] cleared or with the flag read as false. *)
Inductive Boot : Phase -> Flow unit -> Prop :=
| B_RetDead a : Boot Dead (Ret a)
| B_RetCleared a : Boot Cleared (Ret a)
| B_Await R (c : SdkCall R) k :
    isLogoutCall c = false ->
    (forall out, Boot Blind (k out)) ->
    Boot Blind (Await c k)
| B_ConsoleError ph msg e k :
    Boot ph k -> Boot ph (ConsoleError msg e k)
| B_ReadBlind k :
    Boot Dead (k false) -> Boot Alive (k true) -> Boot Blind (ReadMounted k)
| B_ReadDead k :
    Boot Dead (k false) -> Boot Dead (ReadMounted k)
| B_ReadAlive k :
    Boot Alive (k true) -> Boot Alive (ReadMounted k)
| B_ReadStored k :
    Boot Stored (k true) -> Boot Stored (ReadMounted k)
| B_SetAccount v k :
    Boot Stored k -> Boot Alive (SetAccount v k)
| B_ClearAlive k :
    Boot Cleared k -> Boot Alive (SetLoading false k)
| B_ClearStored k :
    Boot Cleared k -> Boot Stored (SetLoading false k).

(** What a phase knows about the world the turn runs in. *)
Definition phaseOK (ph : Phase) (w : World) : Prop :=
  match ph with
  | Blind => True
  | Dead => isMounted w = false
  | Alive | Stored => isMounted w = true
  | Cleared => isMounted w = true /\ loading (ui w) = false
  end.

Definition ParkedOK (p : Suspended) : Prop :=
  match p with
  | Susp o _ k =>
      (o = FromCheckLoginStatus -> forall out, Boot Blind (k out)) /\
      (o <> FromCheckLoginStatus -> forall out, Quiet (k out))
  end.

(** [setLoading] is called by the session check only, and only with [false]. *)
Definition spyOK (e : SpyEntry) : Prop :=
  match spyCall e with
  | CallSetLoading b => b = false /\ spyOrigin e = FromCheckLoginStatus
  | CallSetAccount _ => True
  end.

(** Before the session check has cleared [loading]: both cells as created,
    no setter called, no callback registered, and either the check is the
    one parked flow or it has ended on an unmounted component. *)
Definition Booting (w : World) : Prop :=
  ui w = initialState /\
  spy w = [] /\
  callbacks w = [] /\
  ((exists p, pending w = [p] /\ suspOrigin p = FromCheckLoginStatus) \/
   (pending w = [] /\ isMounted w = false)).

(** After it: [loading] is false and the check is parked no longer. *)
Definition Settled (w : World) : Prop :=
  loading (ui w) = false /\ CheckOver w.

Definition Reach (w : World) : Prop :=
  unhandled w = [] /\
  Forall (eq loggedOutCallback) (callbacks w) /\
  length (callbacks w) = logoutCalls (issued w) /\
  Forall spyOK (spy w) /\
  Forall ParkedOK (pending w) /\
  (Booting w \/ Settled w).

(** The session check, the way its three promises can settle. *)
Inductive CheckScript : Type :=
| IsLoggedInRejects (e : JsError)
| NoSession
| GetInfoRejects (e : JsError)
| GetSignerRejects (u : UserInfo) (e : JsError)
| BothResolve (u : UserInfo) (s : Signer).

Definition scriptEvents (sc : CheckScript) : list Event :=
  match sc with
  | IsLoggedInRejects e => [EvSettle 0 (RespReject e)]
  | NoSession => [EvSettle 0 (RespBool false)]
  | GetInfoRejects e => [EvSettle 0 (RespBool true); EvSettle 0 (RespReject e)]
  | GetSignerRejects u e =>
      [EvSettle 0 (RespBool true); EvSettle 0 (RespInfo u); EvSettle 0 (RespReject e)]
  | BothResolve u s =>
      [EvSettle 0 (RespBool true); EvSettle 0 (RespInfo u); EvSettle 0 (RespSigner s)]
  end.

(** What [checkLoginStatus] logs on a script, and the account it stores. *)
Definition scriptConsole (sc : CheckScript) : list (string * JsError) :=
  match sc with
  | IsLoggedInRejects e | GetInfoRejects e | GetSignerRejects _ e =>
      [("Failed to check login status", e)]
  | NoSession => []
  | BothResolve u s =>
      if String.eqb (publicAddress u) (address s) then []
      else [("Failed to check login status",
             Error "User address does not match signer address")]
  end.

Definition scriptAccount (sc : CheckScript) : JsVal :=
  match sc with
  | BothResolve u s =>
      if String.eqb (publicAddress u) (address s) then JStr (publicAddress u)
      else JNull
  | _ => JNull
  end.

Definition scriptIssued (sc : CheckScript) : list IssuedCall :=
  match sc with
  | IsLoggedInRejects _ | NoSession => [Call IsLoggedIn]
  | GetInfoRejects _ => [Call IsLoggedIn; Call GetInfo]
  | GetSignerRejects _ _ | BothResolve _ _ =>
      [Call IsLoggedIn; Call GetInfo; Call GetSigner]
  end.

(** One constructor of [Boot], chosen by the shape of the flow. *)
Ltac boot_step :=
  first
    [ apply B_RetDead
    | apply B_RetCleared
    | apply B_ConsoleError
    | apply B_ReadBlind
    | apply B_ReadDead
    | apply B_ReadAlive
    | apply B_ReadStored
    | apply B_SetAccount
    | apply B_ClearAlive
    | apply B_ClearStored
    | apply B_Await; [reflexivity | intros [? | ?]; cbn -[String.eqb]]
    | match goal with
      | |- context [if ?b then _ else _] => destruct b; cbn -[String.eqb]
      end ].

(** ** Facts about lists *)

Lemma remove_nth_last (A : Type) (l : list A) (x : A) :
  remove_nth (length l) (l ++ [x]) = l.
Proof.
  unfold remove_nth.
  induction l as [| a l IH]; simpl.
  - reflexivity.
  - f_equal. exact IH.
Qed.

Lemma nth_error_last (A : Type) (l : list A) (x : A) :
  nth_error (l ++ [x]) (length l) = Some x.
Proof.
  rewrite nth_error_app2 by lia.
  rewrite Nat.sub_diag. reflexivity.
Qed.

Lemma Forall_remove_nth (A : Type) (P : A -> Prop) (l : list A) (i : nat) :
  Forall P l -> Forall P (remove_nth i l).
Proof.
  intros H. unfold remove_nth. apply Forall_app. split.
  - rewrite <- (firstn_skipn i l) in H. apply Forall_app in H. tauto.
  - rewrite <- (firstn_skipn (S i) l) in H. apply Forall_app in H. tauto.
Qed.

(** ** Facts about one turn *)

Lemma run_sync_frame (o : Origin) (f : Flow unit) :
  forall w,
    isMounted (run_sync o f w) = isMounted w /\
    (exists new,
        spy (run_sync o f w) = spy w ++ new /\
        Forall (fun e => spyOrigin e = o /\ spyMounted e = isMounted w) new) /\
    (exists susp,
        pending (run_sync o f w) = pending w ++ susp /\
        Forall (fun p => suspOrigin p = o) susp).
Proof.
  induction f as [a | e | R c k IH | v k IH | b k IH | msg e k IH | cb k IH | k IH];
    intros w; simpl.
  - repeat split; exists []; rewrite app_nil_r; auto.
  - repeat split; exists []; rewrite app_nil_r; auto.
  - repeat split.
    + exists []. rewrite app_nil_r; auto.
    + exists [Susp o c k]. split; auto.
  - destruct (IH (callSetter o (CallSetAccount v) w)) as (Hm & (new & Hs & Hn) & (susp & Hp & Ho)).
    simpl in *. repeat split; auto.
    + eexists. rewrite Hs, <- app_assoc. split; [reflexivity |].
      constructor; auto.
    + exists susp; auto.
  - destruct (IH (callSetter o (CallSetLoading b) w)) as (Hm & (new & Hs & Hn) & (susp & Hp & Ho)).
    simpl in *. repeat split; auto.
    + eexists. rewrite Hs, <- app_assoc. split; [reflexivity |].
      constructor; auto.
    + exists susp; auto.
  - apply (IH (logError msg e w)).
  - apply (IH (register cb w)).
  - apply IH.
Qed.

Lemma run_sync_isMounted (o : Origin) (f : Flow unit) (w : World) :
  isMounted (run_sync o f w) = isMounted w.
Proof. apply run_sync_frame. Qed.

(** A guarded turn: it registers nothing; unmounted, it calls no setter;
    and if it parks again, it has called no setter either. *)
Lemma guarded_turn (o : Origin) (m : Mode) (f : Flow unit) :
  Guarded m f ->
  forall w,
    (m <> Unread -> isMounted w = true) ->
    callbacks (run_sync o f w) = callbacks w /\
    (isMounted w = false ->
     ui (run_sync o f w) = ui w /\ spy (run_sync o f w) = spy w) /\
    (pending (run_sync o f w) = pending w \/
     (m <> Wrote /\
      exists p, pending (run_sync o f w) = pending w ++ [p] /\
                GuardedSusp p /\ suspOrigin p = o /\
                ui (run_sync o f w) = ui w /\ spy (run_sync o f w) = spy w)).
Proof.
  induction 1 as [m a | m e | m R c k Hm Hk _ | m v k Hm Hk IH | m b k Hm Hk IH
                 | m msg e k Hk IH | k Hf IHf Ht IHt | m k Hm Hk IH];
    intros w Hw; simpl.
  - auto.
  - auto.
  - repeat split; auto. right. split; auto.
    exists (Susp o c k). simpl. auto.
  - destruct (IH (callSetter o (CallSetAccount v) w)) as (Hc & _ & Hp).
    + intros _. simpl. auto.
    + simpl in *. split; auto. split.
      * intros Hu. rewrite (Hw Hm) in Hu. discriminate.
      * destruct Hp as [Hp | (Hne & _)]; [left; exact Hp | congruence].
  - destruct (IH (callSetter o (CallSetLoading b) w)) as (Hc & _ & Hp).
    + intros _. simpl. auto.
    + simpl in *. split; auto. split.
      * intros Hu. rewrite (Hw Hm) in Hu. discriminate.
      * destruct Hp as [Hp | (Hne & _)]; [left; exact Hp | congruence].
  - apply (IH (logError msg e w)). exact Hw.
  - assert (E : isMounted w = true \/ isMounted w = false)
      by (destruct (isMounted w); auto).
    destruct E as [E | E].
    + replace (k (isMounted w)) with (k true) by (rewrite E; reflexivity).
      destruct (IHt w) as (Hc & Hu & Hp).
      * intros _. exact E.
      * split; auto. split; auto.
        destruct Hp as [Hp | (_ & Hp)]; [left; exact Hp |].
        right. split; [discriminate | exact Hp].
    + replace (k (isMounted w)) with (k false) by (rewrite E; reflexivity).
      apply IHf. intros C. congruence.
  - replace (k (isMounted w)) with (k true) by (rewrite (Hw Hm); reflexivity).
    apply IH. exact Hw.
Qed.

(** The setter calls of a guarded turn all found the flag set. *)
Lemma guarded_turn_spy (o : Origin) (f : Flow unit) (w : World) :
  Guarded Unread f ->
  checkCallsGuarded w ->
  checkCallsGuarded (run_sync o f w).
Proof.
  intros G Hs. unfold checkCallsGuarded in *.
  destruct (run_sync_frame o f w) as (_ & (new & Hn & Hall) & _).
  assert (E : isMounted w = true \/ isMounted w = false)
    by (destruct (isMounted w); auto).
  destruct E as [E | E].
  - rewrite Hn. apply Forall_app. split; auto.
    eapply Forall_impl; [| exact Hall].
    simpl. intros e [_ He] _. congruence.
  - destruct (guarded_turn o G w) as (_ & Hu & _); [congruence |].
    destruct (Hu E) as [_ ->]. exact Hs.
Qed.

(** A turn of another origin adds no call of [checkLoginStatus]. *)
Lemma foreign_turn_spy (o : Origin) (f : Flow unit) (w : World) :
  o <> FromCheckLoginStatus ->
  checkCallsGuarded w ->
  checkCallsGuarded (run_sync o f w).
Proof.
  intros Ho Hs. unfold checkCallsGuarded in *.
  destruct (run_sync_frame o f w) as (_ & (new & Hn & Hall) & _).
  rewrite Hn. apply Forall_app. split; auto.
  eapply Forall_impl; [| exact Hall].
  simpl. unfold fromCheck. intros e [He _] C. congruence.
Qed.

(** ** Facts about the logged-out callbacks *)

Lemma callSetters_frame (cs : list SetterCall) :
  forall w,
    let w' := fold_left (fun w'' c => callSetter FromLoggedOutCallback c w'') cs w in
    pending w' = pending w /\
    isMounted w' = isMounted w /\
    callbacks w' = callbacks w /\
    exists new, spy w' = spy w ++ new /\
                Forall (fun e => spyOrigin e = FromLoggedOutCallback) new.
Proof.
  induction cs as [| c cs IH]; intros w; simpl.
  - repeat split. exists []. rewrite app_nil_r. auto.
  - destruct (IH (callSetter FromLoggedOutCallback c w))
      as (Hp & Hm & Hc & new & Hs & Hn).
    simpl in *. repeat split; auto.
    eexists. rewrite Hs, <- app_assoc. split; [reflexivity |].
    constructor; auto.
Qed.

Lemma fireAll_frame (b : bool) (cbs : list LogoutCallback) :
  forall w,
    pending (fireAll b cbs w) = pending w /\
    isMounted (fireAll b cbs w) = isMounted w /\
    callbacks (fireAll b cbs w) = callbacks w /\
    exists new, spy (fireAll b cbs w) = spy w ++ new /\
                Forall (fun e => spyOrigin e = FromLoggedOutCallback) new.
Proof.
  induction cbs as [| cb cbs IH]; intros w.
  - repeat split. exists []. rewrite app_nil_r. auto.
  - change (fireAll b (cb :: cbs) w)
      with (fireAll b cbs
              (fold_left (fun w'' c => callSetter FromLoggedOutCallback c w'')
                         (cb b) w)).
    destruct (callSetters_frame (cb b) w) as (Hp1 & Hm1 & Hc1 & new1 & Hs1 & Hn1).
    cbn zeta in *.
    destruct (IH (fold_left (fun w'' c => callSetter FromLoggedOutCallback c w'')
                            (cb b) w))
      as (Hp & Hm & Hc & new & Hs & Hn).
    rewrite Hp, Hm, Hc, Hs, Hp1, Hm1, Hc1, Hs1. repeat split.
    exists (new1 ++ new). rewrite app_assoc. split; [reflexivity |].
    apply Forall_app. auto.
Qed.

(** ** [checkLoginStatus] obeys the discipline *)

Lemma checkLoginStatus_guarded : Guarded Unread checkLoginStatus.
Proof.
  unfold checkLoginStatus, when. cbn -[String.eqb].
  repeat guard_step.
Qed.

(** [connectWallet] does not: resumed after teardown, it still calls
    [setAccount]. *)
Lemma connectWallet_not_guarded : ~ Guarded Unread connectWallet.
Proof.
  intros G.
  pose (w0 := cleanup freshWorld).
  destruct (guarded_turn FromConnectWallet G w0) as (_ & _ & Hp);
    [congruence |].
  destruct Hp as [Hp | (_ & p & Hp & Gp & _)]; [discriminate Hp |].
  cbn in Hp. injection Hp as <-. cbn in Gp.
  specialize (Gp (Resolved [])).
  destruct (guarded_turn FromConnectWallet Gp w0) as (_ & Hu & _);
    [congruence |].
  destruct (Hu eq_refl) as [_ Hs]. discriminate Hs.
Qed.

(** ** The invariants hold along every run *)

Lemma guarded_turn_inv (f : Flow unit) (w : World) :
  Guarded Unread f ->
  GuardInv w ->
  GuardInv (run_sync FromCheckLoginStatus f w).
Proof.
  intros G [Hp Hs]. split.
  - destruct (guarded_turn FromCheckLoginStatus G w) as (_ & _ & [-> | (_ & p & -> & Gp & _)]);
      [congruence | exact Hp |].
    apply Forall_app. split; auto.
  - apply guarded_turn_spy; assumption.
Qed.

Lemma foreign_turn_inv (o : Origin) (f : Flow unit) (w : World) :
  o <> FromCheckLoginStatus ->
  GuardInv w ->
  GuardInv (run_sync o f w).
Proof.
  intros Ho [Hp Hs]. split.
  - destruct (run_sync_frame o f w) as (_ & _ & (susp & -> & Hall)).
    apply Forall_app. split; auto.
    eapply Forall_impl; [| exact Hall].
    simpl. unfold fromCheck. intros p Hq C. congruence.
  - apply foreign_turn_spy; assumption.
Qed.

Lemma Origin_eq_dec (o : Origin) :
  o = FromCheckLoginStatus \/ o <> FromCheckLoginStatus.
Proof. destruct o; [left; reflexivity | right; discriminate ..]. Qed.

Lemma step_GuardInv (e : Event) (w : World) :
  GuardInv w -> GuardInv (step e w).
Proof.
  intros Hinv. destruct e as [i r | h | | b]; simpl.
  - unfold settle.
    destruct (nth_error (pending w) i) as [[o R c k] |] eqn:En; [| exact Hinv].
    destruct (decode c r) as [out |]; [| exact Hinv].
    destruct Hinv as [Hp Hs].
    assert (H0 : GuardInv (setPending (remove_nth i (pending w)) w)).
    { split; [apply Forall_remove_nth; exact Hp | exact Hs]. }
    destruct (Origin_eq_dec o) as [-> | Ho].
    + apply guarded_turn_inv; [| exact H0].
      apply nth_error_In in En.
      rewrite Forall_forall in Hp.
      apply (Hp _ En). reflexivity.
    + apply foreign_turn_inv; assumption.
  - unfold click.
    destruct (isMounted w && offers h (render (ui w))); [| exact Hinv].
    apply foreign_turn_inv; [destruct h; discriminate | exact Hinv].
  - exact Hinv.
  - destruct Hinv as [Hp Hs]. unfold fireLoggedOut.
    destruct (fireAll_frame b (callbacks w) w) as (Hq & _ & _ & new & Hn & Hall).
    split.
    + rewrite Hq. exact Hp.
    + unfold checkCallsGuarded. rewrite Hn. apply Forall_app. split; auto.
      eapply Forall_impl; [| exact Hall].
      simpl. unfold fromCheck. intros e He C. congruence.
Qed.

Lemma GuardInv_mountWorld : GuardInv mountWorld.
Proof.
  apply guarded_turn_inv.
  - exact checkLoginStatus_guarded.
  - split; constructor.
Qed.

Lemma run_GuardInv (evs : list Event) :
  forall w, GuardInv w -> GuardInv (run evs w).
Proof.
  induction evs as [| e evs IH]; intros w Hw; simpl.
  - exact Hw.
  - apply IH. apply step_GuardInv. exact Hw.
Qed.

Lemma CheckOver_not_pending (w : World) :
  CheckOver w -> checkPending w = false.
Proof.
  unfold CheckOver, checkPending.
  induction 1 as [| p ps Hp _ IH]; simpl.
  - reflexivity.
  - rewrite IH. destruct (suspOrigin p); try reflexivity. congruence.
Qed.

Lemma settle_OnlyCheck (i : nat) (r : Response) (w : World) :
  OnlyCheck w ->
  (OnlyCheck (settle i r w) \/ CheckOver (settle i r w)) /\
  (isMounted w = false -> OnlyCheck (settle i r w)) /\
  isMounted (settle i r w) = isMounted w.
Proof.
  intros (Hs & Hu & Hc & Hp). unfold settle.
  destruct Hp as [Hp | (p & Hp & Gp & Ho)]; rewrite Hp.
  - destruct i; simpl; (split; [| split]); try reflexivity;
      try left; repeat split; auto.
  - destruct i as [| i]; simpl.
    2:{ destruct i; simpl; (split; [| split]); try reflexivity;
        try left; repeat split; eauto. }
    destruct p as [o R c k]. simpl in Ho, Gp. subst o.
    destruct (decode c r) as [out |].
    2:{ (split; [| split]); try reflexivity;
        try left; repeat split; auto; right; eexists; eauto. }
    unfold remove_nth. simpl.
    set (w0 := setPending [] w).
    destruct (guarded_turn FromCheckLoginStatus (Gp out) w0)
      as (Hcb & Hun & Hpe); [congruence |].
    split; [| split].
    + destruct Hpe as [Hpe | (_ & p' & Hpe & Gp' & Ho' & Hui & Hsp)].
      * right. unfold CheckOver. rewrite Hpe. constructor.
      * left. unfold OnlyCheck.
        rewrite Hsp, Hui, Hcb, Hpe. subst w0. simpl.
        repeat split; auto. right. eexists; eauto.
    + intros Hm. destruct (Hun (Hm : isMounted w0 = false)) as [Hui Hsp].
      unfold OnlyCheck. rewrite Hsp, Hui, Hcb.
      destruct Hpe as [Hpe | (_ & p' & Hpe & Gp' & Ho' & _)]; rewrite Hpe;
        subst w0; simpl; repeat split; auto.
      right. eexists; eauto.
    + exact (run_sync_isMounted FromCheckLoginStatus (k out) w0).
Qed.

Lemma step_OnlyCheck (e : Event) (w : World) :
  OnlyCheck w ->
  (OnlyCheck (step e w) \/ CheckOver (step e w)) /\
  (isMounted w = false ->
   OnlyCheck (step e w) /\ isMounted (step e w) = false).
Proof.
  intros H. destruct e as [i r | h | | b]; simpl.
  - destruct (settle_OnlyCheck i r H) as (H1 & H2 & H3).
    split; [exact H1 |]. intros Hm. split; [auto | congruence].
  - assert (E : click h w = w).
    { unfold click. destruct H as (_ & -> & _).
      destruct h; cbn; rewrite andb_false_r; reflexivity. }
    rewrite E. auto.
  - assert (OnlyCheck (cleanup w)) by exact H. auto.
  - assert (E : fireLoggedOut b w = w).
    { unfold fireLoggedOut. destruct H as (_ & _ & -> & _). reflexivity. }
    rewrite E. auto.
Qed.

Lemma step_CheckOver (e : Event) (w : World) :
  CheckOver w -> CheckOver (step e w).
Proof.
  unfold CheckOver. intros H. destruct e as [i r | h | | b]; simpl.
  - unfold settle.
    destruct (nth_error (pending w) i) as [[o R c k] |] eqn:En; [| exact H].
    destruct (decode c r) as [out |]; [| exact H].
    destruct (run_sync_frame o (k out) (setPending (remove_nth i (pending w)) w))
      as (_ & _ & (susp & -> & Hall)).
    simpl. apply Forall_app. split.
    + apply Forall_remove_nth. exact H.
    + apply nth_error_In in En. rewrite Forall_forall in H.
      specialize (H _ En). simpl in H.
      eapply Forall_impl; [| exact Hall]. simpl. congruence.
  - unfold click.
    destruct (isMounted w && offers h (render (ui w))); [| exact H].
    destruct (run_sync_frame (handlerOrigin h) (handlerFlow h) w)
      as (_ & _ & (susp & -> & Hall)).
    apply Forall_app. split; auto.
    eapply Forall_impl; [| exact Hall].
    simpl. intros p ->. destruct h; discriminate.
  - exact H.
  - unfold fireLoggedOut.
    destruct (fireAll_frame b (callbacks w) w) as (-> & _). exact H.
Qed.

Lemma OnlyCheck_mountWorld : OnlyCheck mountWorld.
Proof.
  destruct GuardInv_mountWorld as [Hp _].
  repeat split. right. eexists. split; [reflexivity |].
  inversion Hp as [| p ps Gp _ E]. split; [| reflexivity].
  apply Gp. reflexivity.
Qed.

Lemma run_OnlyCheck_or_over (evs : list Event) :
  forall w,
    OnlyCheck w \/ CheckOver w ->
    OnlyCheck (run evs w) \/ CheckOver (run evs w).
Proof.
  induction evs as [| e evs IH]; intros w Hw; simpl.
  - exact Hw.
  - apply IH. destruct Hw as [Hw | Hw].
    + apply (step_OnlyCheck e Hw).
    + right. apply step_CheckOver. exact Hw.
Qed.

Lemma run_frozen (evs : list Event) :
  forall w,
    OnlyCheck w -> isMounted w = false ->
    OnlyCheck (run evs w).
Proof.
  induction evs as [| e evs IH]; intros w Hw Hm; simpl.
  - exact Hw.
  - destruct (step_OnlyCheck e Hw) as [_ Hf].
    destruct (Hf Hm) as [H1 H2]. apply IH; assumption.
Qed.

(** ** The session check at mount *)

(** C1. When a session exists and the address of the user record differs
    from the signer's address (string inequality, so a difference in letter
    case counts), the error "User address does not match signer address"
    is caught and logged, nothing is left unhandled, and the component ends
    with [loading = false] and [account = null]. *)
Theorem checkSession_mismatch (u : UserInfo) (s : Signer) :
  publicAddress u <> address s ->
  ui (sessionCheckRun u s) = {| account := JNull; loading := false |} /\
  console (sessionCheckRun u s) =
    [("Failed to check login status",
      Error "User address does not match signer address")] /\
  unhandled (sessionCheckRun u s) = [] /\
  pending (sessionCheckRun u s) = [].
Proof.
  intros Hne.
  apply String.eqb_neq in Hne.
  unfold sessionCheckRun, run, mountWorld, step, settle.
  cbn -[String.eqb]. rewrite Hne. cbn.
  repeat split.
Qed.

Lemma checkSession_mismatch_witness :
  publicAddress {| publicAddress := "0xABC" |} <> address {| address := "0xabc" |} /\
  ui (sessionCheckRun {| publicAddress := "0xABC" |} {| address := "0xabc" |})
  = {| account := JNull; loading := false |}.
Proof.
  split.
  - simpl. discriminate.
  - apply (checkSession_mismatch {| publicAddress := "0xABC" |} {| address := "0xabc" |}).
    simpl. discriminate.
Defined.

(** C2. When a session exists and the two addresses are equal, the
    component ends with [loading = false] and [account] holding that
    address. *)
Theorem checkSession_match (u : UserInfo) (s : Signer) :
  publicAddress u = address s ->
  ui (sessionCheckRun u s) =
    {| account := JStr (publicAddress u); loading := false |} /\
  console (sessionCheckRun u s) = [] /\
  pending (sessionCheckRun u s) = [].
Proof.
  intros He.
  apply String.eqb_eq in He.
  unfold sessionCheckRun, run, mountWorld, step, settle.
  cbn -[String.eqb]. rewrite He. cbn.
  repeat split.
Qed.

Lemma checkSession_match_witness :
  ui (sessionCheckRun {| publicAddress := "0xABC" |} {| address := "0xABC" |})
  = {| account := JStr "0xABC"; loading := false |}.
Proof.
  apply (checkSession_match {| publicAddress := "0xABC" |} {| address := "0xABC" |}).
  reflexivity.
Defined.

(** C3. When the SDK reports no session, the component ends with
    [loading = false] and [account = null], and [isLoggedIn] is the only
    SDK call the check has made. *)
Theorem checkSession_no_session :
  let w := run [EvSettle 0 (RespBool false)] mountWorld in
  ui w = {| account := JNull; loading := false |} /\
  issued w = [Call IsLoggedIn] /\
  pending w = [] /\
  console w = [].
Proof.
  cbn. repeat split.
Qed.

(** ** Resuming a flow that has just parked *)

Lemma settle_parked (o : Origin) (R : Type) (c : SdkCall R)
      (k : Outcome R -> Flow unit) (w : World) (i : nat) (r : Response)
      (out : Outcome R) :
  i = length (pending w) ->
  decode c r = Some out ->
  settle i r (suspend o c k w) =
  run_sync o (k out) (setPending (pending w) (suspend o c k w)).
Proof.
  intros -> Hd. unfold settle. simpl pending.
  rewrite nth_error_last, Hd, remove_nth_last.
  reflexivity.
Qed.

(** ** [connectWallet] *)

(** C7. Once [connectWithUI] resolves, [account] is the first entry of the
    array it resolved with and [loading] is untouched.  Once it rejects,
    with whatever error, the error is logged under "Connection failed",
    nothing is left unhandled, [account] and [loading] are what they were,
    and so is the rendered tree. *)
Theorem connectWallet_outcome (w : World) :
  let parked := run_sync FromConnectWallet connectWallet w in
  let i := length (pending w) in
  (forall l,
      ui (settle i (RespAccounts l) parked) =
      {| account := js_index l 0; loading := loading (ui w) |}) /\
  (forall a rest,
      account (ui (settle i (RespAccounts (a :: rest)) parked)) = JStr a) /\
  (forall e,
      ui (settle i (RespReject e) parked) = ui w /\
      console (settle i (RespReject e) parked) =
        console w ++ [("Connection failed", e)] /\
      unhandled (settle i (RespReject e) parked) = unhandled w /\
      spy (settle i (RespReject e) parked) = spy w /\
      render (ui (settle i (RespReject e) parked)) = render (ui w)).
Proof.
  cbn zeta. unfold connectWallet. cbn [run_sync try_catch bind Monad_Flow flow_bind await].
  split; [| split].
  - intros l. rewrite settle_parked with (out := Resolved l) by reflexivity.
    reflexivity.
  - intros a rest.
    rewrite settle_parked with (out := Resolved (a :: rest)) by reflexivity.
    reflexivity.
  - intros e. rewrite settle_parked with (out := Rejected e) by reflexivity.
    cbn. repeat split.
Qed.

(** C10. When [connectWithUI] resolves with an empty array, the handler
    calls [setAccount(accounts[0])] all the same: [account] becomes
    [undefined], and with [loading] false the component renders the
    Connect button and no Disconnect button. *)
Theorem connectWallet_empty_list (w : World) :
  loading (ui w) = false ->
  let w' := settle (length (pending w)) (RespAccounts [])
                   (run_sync FromConnectWallet connectWallet w) in
  account (ui w') = JUndefined /\
  spy w' = spy w ++ [{| spyOrigin := FromConnectWallet;
                        spyCall := CallSetAccount JUndefined;
                        spyMounted := isMounted w |}] /\
  specView (ui w') = Disconnected /\
  showsConnect (render (ui w')) = true /\
  showsDisconnect (render (ui w')) = false /\
  showsAddressLine (render (ui w')) = false.
Proof.
  intros Hl. cbn zeta.
  unfold connectWallet. cbn [run_sync try_catch bind Monad_Flow flow_bind await].
  rewrite settle_parked with (out := Resolved []) by reflexivity.
  cbn. unfold specView, render. cbn. rewrite Hl. cbn.
  repeat split.
Qed.

Lemma connectWallet_empty_list_witness :
  account
    (ui (run [EvSettle 0 (RespBool false); EvClick HConnectWallet;
              EvSettle 0 (RespAccounts [])] mountWorld)) = JUndefined.
Proof.
  apply (connectWallet_empty_list (run [EvSettle 0 (RespBool false)] mountWorld)).
  reflexivity.
Defined.

(** ** [logout] *)

Lemma fireAll_app (b : bool) (l1 l2 : list LogoutCallback) (w : World) :
  fireAll b (l1 ++ l2) w = fireAll b l2 (fireAll b l1 w).
Proof. unfold fireAll. apply fold_left_app. Qed.

Lemma fireAll_same (b : bool) (cbs : list LogoutCallback) :
  Forall (eq loggedOutCallback) cbs ->
  forall w,
    loading (ui (fireAll b cbs w)) = loading (ui w) /\
    (b = false -> ui (fireAll b cbs w) = ui w).
Proof.
  induction 1 as [| cb cbs <- _ IH]; intros w.
  - split; reflexivity.
  - destruct b.
    + destruct (IH (callSetter FromLoggedOutCallback (CallSetAccount JNull) w))
        as [Hl _].
      split; [exact Hl | discriminate].
    + apply (IH w).
Qed.

(** Firing the registered callbacks after one more [logout] has run. *)
Lemma fire_after_logout (b : bool) (w : World) :
  Forall (eq loggedOutCallback) (callbacks w) ->
  ui (fireLoggedOut b (run_sync FromLogout logout w)) =
  if b then {| account := JNull; loading := loading (ui w) |} else ui w.
Proof.
  intros Hc. unfold fireLoggedOut.
  change (callbacks (run_sync FromLogout logout w))
    with (callbacks w ++ [loggedOutCallback]).
  rewrite fireAll_app.
  destruct (fireAll_same b Hc (run_sync FromLogout logout w)) as [Hl Hu].
  set (mid := fireAll b (callbacks w) (run_sync FromLogout logout w)) in *.
  destruct b.
  - change (ui (fireAll true [loggedOutCallback] mid))
      with {| account := JNull; loading := loading (ui mid) |}.
    rewrite Hl. reflexivity.
  - change (ui (fireAll false [loggedOutCallback] mid)) with (ui mid).
    rewrite Hu; reflexivity.
Qed.

(** C6 as amended.  [logout] first registers the callback of lines 45-50,
    then calls [magic.user.logout()] and parks, the two cells untouched.
    The callback sets [account] to [null] when the SDK fires it with
    [true], and does nothing when fired with [false].  When the logout
    call rejects, the error is logged under "Logout failed", nothing is
    left unhandled, and both cells are what they were. *)
Theorem logout_outcome (w : World) :
  Forall (eq loggedOutCallback) (callbacks w) ->
  let parked := run_sync FromLogout logout w in
  callbacks parked = callbacks w ++ [loggedOutCallback] /\
  issued parked = issued w ++ [Call Logout] /\
  ui parked = ui w /\
  ui (fireLoggedOut true parked) =
    {| account := JNull; loading := loading (ui w) |} /\
  ui (fireLoggedOut false parked) = ui w /\
  (forall e,
      let failed := settle (length (pending w)) (RespReject e) parked in
      ui failed = ui w /\
      console failed = console w ++ [("Logout failed", e)] /\
      unhandled failed = unhandled w /\
      spy failed = spy w).
Proof.
  intros Hc. cbn zeta.
  split; [reflexivity |].
  split; [reflexivity |].
  split; [reflexivity |].
  split; [exact (fire_after_logout true w Hc) |].
  split; [exact (fire_after_logout false w Hc) |].
  intros e. unfold logout.
  cbn [run_sync try_catch bind Monad_Flow flow_bind await onUserLoggedOut].
  rewrite settle_parked with (out := Rejected e) by reflexivity.
  cbn. repeat split.
Qed.

Lemma logout_outcome_witness :
  ui (run [EvClick HLogout; EvUserLoggedOut true] connectedWorld) =
  {| account := JNull; loading := false |}.
Proof.
  apply (logout_outcome connectedWorld).
  constructor.
Defined.

(** C6 as worded fails on a firing with [false]: the user is connected,
    clicks Disconnect, the SDK fires the registered callback with [false],
    and [account] still holds the address. *)
Lemma logout_callback_fired_with_false :
  let w := run [EvClick HLogout; EvUserLoggedOut false] connectedWorld in
  callbacks w = [loggedOutCallback] /\
  account (ui w) = JStr "0xABC" /\
  account (ui w) <> JNull.
Proof.
  cbn. repeat split. discriminate.
Qed.

(** ** Startup *)

(** C8. When the API key is missing (undefined, or the empty string, which
    the guard treats alike), evaluating the module throws
    "REACT_APP_MAGIC_API_KEY is required." before anything else happens:
    neither client is constructed and the component is never exported, so
    nothing can render it. *)
Theorem startup_requires_key (env : Startup.Env) :
  Startup.key_missing env = true ->
  Startup.moduleInit env =
    {| Startup.performed := [];
       Startup.thrown := Some (Error "REACT_APP_MAGIC_API_KEY is required.") |} /\
  Startup.client_constructed (Startup.moduleInit env) = false /\
  Startup.app_available (Startup.moduleInit env) = false.
Proof.
  intros Hm. unfold Startup.moduleInit. rewrite Hm. repeat split.
Qed.

Lemma startup_requires_key_witness :
  Startup.thrown (Startup.moduleInit {| Startup.REACT_APP_MAGIC_API_KEY := None |}) =
  Some (Error "REACT_APP_MAGIC_API_KEY is required.") /\
  Startup.client_constructed
    (Startup.moduleInit {| Startup.REACT_APP_MAGIC_API_KEY := None |}) = false.
Proof.
  destruct (startup_requires_key {| Startup.REACT_APP_MAGIC_API_KEY := None |} eq_refl)
    as (H1 & H2 & _).
  split; [rewrite H1; reflexivity | exact H2].
Defined.

(** With a key, both clients are constructed, in order, and the component
    is exported. *)
Lemma startup_with_key (k : string) :
  k <> "" ->
  Startup.moduleInit {| Startup.REACT_APP_MAGIC_API_KEY := Some k |} =
  {| Startup.performed :=
       [Startup.NewMagic k true; Startup.NewBrowserProvider;
        Startup.DefineApp; Startup.ExportDefaultApp];
     Startup.thrown := None |}.
Proof.
  intros Hk. apply String.eqb_neq in Hk.
  unfold Startup.moduleInit, Startup.key_missing. simpl. rewrite Hk. reflexivity.
Qed.

(** ** The mount flag *)

Lemma run_app (evs1 evs2 : list Event) (w : World) :
  run (evs1 ++ evs2) w = run evs2 (run evs1 w).
Proof. unfold run. apply fold_left_app. Qed.

(** C4 as amended.  Whatever the user and the SDK do after mount, and in
    whatever order, every setter call made by [checkLoginStatus] was made
    while [isMounted] was still true. *)
Theorem checkLoginStatus_calls_guarded (evs : list Event) :
  checkCallsGuarded (run evs mountWorld).
Proof.
  apply (run_GuardInv evs GuardInv_mountWorld).
Qed.

(** C4 as worded fails for [connectWallet] and for the callback of
    [logout]: neither reads the flag.  The user clicks Connect, the
    component unmounts, [connectWithUI] resolves: [setAccount] is called
    after teardown.  Likewise when the SDK fires the logged-out callback
    after teardown. *)
Lemma setters_called_after_teardown :
  let w1 := run [EvSettle 0 (RespBool false); EvClick HConnectWallet; EvUnmount;
                 EvSettle 0 (RespAccounts ["0xDEF"])] mountWorld in
  let w2 := run [EvClick HLogout; EvUnmount; EvUserLoggedOut true] connectedWorld in
  spy w1 =
    [ {| spyOrigin := FromCheckLoginStatus; spyCall := CallSetLoading false;
         spyMounted := true |};
      {| spyOrigin := FromConnectWallet; spyCall := CallSetAccount (JStr "0xDEF");
         spyMounted := false |} ] /\
  allCallsGuarded w1 = false /\
  In {| spyOrigin := FromLoggedOutCallback; spyCall := CallSetAccount JNull;
        spyMounted := false |} (spy w2) /\
  allCallsGuarded w2 = false.
Proof.
  cbn. repeat split. auto.
Qed.

(** C5. If the component unmounts while [checkLoginStatus] is still parked
    at one of its [await]s, then however its promises settle afterwards
    (and whatever else happens), no setter is ever called: the spy stays
    empty and both cells keep the values they had at teardown, which are
    the initial ones. *)
Theorem unmount_before_check_resolves (pre post : list Event) :
  checkPending (run pre mountWorld) = true ->
  let torn := run (pre ++ EvUnmount :: post) mountWorld in
  spy torn = [] /\
  spy torn = spy (run pre mountWorld) /\
  ui torn = ui (run pre mountWorld) /\
  ui torn = initialState.
Proof.
  intros Hp. cbn zeta. rewrite run_app.
  destruct (run_OnlyCheck_or_over pre (or_introl OnlyCheck_mountWorld))
    as [Ho | Hover].
  - assert (Hf : OnlyCheck (run (EvUnmount :: post) (run pre mountWorld))).
    { apply (run_frozen post (w := cleanup (run pre mountWorld)));
        [exact Ho | reflexivity]. }
    destruct Ho as (Hs & Hu & _). destruct Hf as (Hs' & Hu' & _).
    rewrite Hs', Hu', Hs, Hu. repeat split.
  - apply CheckOver_not_pending in Hover. congruence.
Qed.

Lemma unmount_before_check_resolves_witness :
  spy (run ([EvSettle 0 (RespBool true)] ++
            EvUnmount ::
            [EvSettle 0 (RespInfo {| publicAddress := "0xABC" |});
             EvSettle 0 (RespSigner {| address := "0xABC" |})]) mountWorld) = [].
Proof.
  apply (unmount_before_check_resolves
           [EvSettle 0 (RespBool true)]
           [EvSettle 0 (RespInfo {| publicAddress := "0xABC" |});
            EvSettle 0 (RespSigner {| address := "0xABC" |})]).
  reflexivity.
Defined.

(** ** Turns of the handlers and of the session check *)

Lemma logoutCalls_app (l1 l2 : list IssuedCall) :
  logoutCalls (l1 ++ l2) = logoutCalls l1 + logoutCalls l2.
Proof.
  unfold logoutCalls. rewrite filter_app, length_app. reflexivity.
Qed.

Lemma quiet_turn (o : Origin) (f : Flow unit) :
  Quiet f ->
  forall w,
    pending (run_sync o f w) = pending w /\
    callbacks (run_sync o f w) = callbacks w /\
    issued (run_sync o f w) = issued w /\
    unhandled (run_sync o f w) = unhandled w /\
    loading (ui (run_sync o f w)) = loading (ui w) /\
    exists new,
      spy (run_sync o f w) = spy w ++ new /\
      Forall (fun e => exists v, spyCall e = CallSetAccount v) new.
Proof.
  induction 1 as [a | v k Hk IH | msg e k Hk IH]; intros w; simpl.
  - repeat split. exists []. rewrite app_nil_r. auto.
  - destruct (IH (callSetter o (CallSetAccount v) w))
      as (Hp & Hc & Hi & Hu & Hl & new & Hs & Hn).
    simpl in *. repeat split; auto.
    eexists. rewrite Hs, <- app_assoc. split; [reflexivity |].
    constructor; [simpl; eauto | exact Hn].
  - apply (IH (logError msg e w)).
Qed.

Lemma boot_turn (ph : Phase) (f : Flow unit) :
  Boot ph f ->
  forall w,
    phaseOK ph w ->
    unhandled (run_sync FromCheckLoginStatus f w) = unhandled w /\
    callbacks (run_sync FromCheckLoginStatus f w) = callbacks w /\
    logoutCalls (issued (run_sync FromCheckLoginStatus f w)) = logoutCalls (issued w) /\
    (loading (ui w) = false ->
     loading (ui (run_sync FromCheckLoginStatus f w)) = false) /\
    (exists new,
        spy (run_sync FromCheckLoginStatus f w) = spy w ++ new /\
        Forall spyOK new) /\
    ((exists p,
         pending (run_sync FromCheckLoginStatus f w) = pending w ++ [p] /\
         suspOrigin p = FromCheckLoginStatus /\
         ParkedOK p /\
         ui (run_sync FromCheckLoginStatus f w) = ui w /\
         spy (run_sync FromCheckLoginStatus f w) = spy w /\
         ph = Blind) \/
     (pending (run_sync FromCheckLoginStatus f w) = pending w /\
      (isMounted w = true ->
       loading (ui (run_sync FromCheckLoginStatus f w)) = false) /\
      (isMounted w = false ->
       ui (run_sync FromCheckLoginStatus f w) = ui w /\
       spy (run_sync FromCheckLoginStatus f w) = spy w))).
Proof.
  induction 1 as [a | a | R c k Hc Hk _ | ph msg e k Hk IH
                 | k Hf IHf Ht IHt | k Hf IHf | k Ht IHt | k Ht IHt
                 | v k Hk IH | k Hk IH | k Hk IH];
    intros w Hw; simpl in Hw; simpl.
  - repeat split; auto;
      try solve [exists []; rewrite app_nil_r; auto];
      try solve [right; repeat split; auto; congruence].
  - destruct Hw as [Hm Hl].
    repeat split; auto;
      try solve [exists []; rewrite app_nil_r; auto];
      try solve [right; repeat split; auto; congruence].
  - repeat split; auto;
      try solve [exists []; rewrite app_nil_r; auto].
    + rewrite logoutCalls_app. unfold logoutCalls at 2. simpl.
      rewrite Hc. simpl. lia.
    + left. exists (Susp FromCheckLoginStatus c k). simpl.
      repeat split; auto. congruence.
  - apply (IH (logError msg e w)).
    destruct ph; simpl in *; auto.
  - assert (E : isMounted w = true \/ isMounted w = false)
      by (destruct (isMounted w); auto).
    destruct E as [E | E].
    + replace (k (isMounted w)) with (k true) by (rewrite E; reflexivity).
      destruct (IHt w E) as (H1 & H2 & H3 & H4 & H5 & H6).
      repeat split; auto.
      destruct H6 as [(p & _ & _ & _ & _ & _ & C) | H6]; [discriminate C |].
      right. exact H6.
    + replace (k (isMounted w)) with (k false) by (rewrite E; reflexivity).
      destruct (IHf w E) as (H1 & H2 & H3 & H4 & H5 & H6).
      repeat split; auto.
      destruct H6 as [(p & _ & _ & _ & _ & _ & C) | H6]; [discriminate C |].
      right. exact H6.
  - replace (k (isMounted w)) with (k false) by (rewrite Hw; reflexivity).
    apply (IHf w Hw).
  - replace (k (isMounted w)) with (k true) by (rewrite Hw; reflexivity).
    apply (IHt w Hw).
  - replace (k (isMounted w)) with (k true) by (rewrite Hw; reflexivity).
    apply (IHt w Hw).
  - destruct (IH (callSetter FromCheckLoginStatus (CallSetAccount v) w) Hw)
      as (H1 & H2 & H3 & H4 & (new & H5 & H5') & H6).
    simpl in *. repeat split; auto.
    + eexists. rewrite H5, <- app_assoc. split; [reflexivity |].
      constructor; [exact I | exact H5'].
    + destruct H6 as [(p & _ & _ & _ & _ & _ & C) | (H6 & H7 & _)];
        [discriminate C |].
      right. repeat split; auto; congruence.
  - destruct (IH (callSetter FromCheckLoginStatus (CallSetLoading false) w))
      as (H1 & H2 & H3 & H4 & (new & H5 & H5') & H6); [simpl; auto |].
    simpl in *. repeat split; auto.
    + eexists. rewrite H5, <- app_assoc. split; [reflexivity |].
      constructor; [split; reflexivity | exact H5'].
    + destruct H6 as [(p & _ & _ & _ & _ & _ & C) | (H6 & H7 & _)];
        [discriminate C |].
      right. repeat split; auto; congruence.
  - destruct (IH (callSetter FromCheckLoginStatus (CallSetLoading false) w))
      as (H1 & H2 & H3 & H4 & (new & H5 & H5') & H6); [simpl; auto |].
    simpl in *. repeat split; auto.
    + eexists. rewrite H5, <- app_assoc. split; [reflexivity |].
      constructor; [split; reflexivity | exact H5'].
    + destruct H6 as [(p & _ & _ & _ & _ & _ & C) | (H6 & H7 & _)];
        [discriminate C |].
      right. repeat split; auto; congruence.
Qed.

Lemma checkLoginStatus_boot : Boot Blind checkLoginStatus.
Proof.
  unfold checkLoginStatus, when. cbn -[String.eqb].
  repeat boot_step.
Qed.

(** The turn a click starts: the handler parks at its one [await]. *)
Lemma handler_turn (h : Handler) (w : World) :
  let w' := run_sync (handlerOrigin h) (handlerFlow h) w in
  ui w' = ui w /\
  spy w' = spy w /\
  unhandled w' = unhandled w /\
  isMounted w' = isMounted w /\
  callbacks w' =
    callbacks w ++ match h with HLogout => [loggedOutCallback] | HConnectWallet => [] end /\
  issued w' =
    issued w ++ [match h with HLogout => Call Logout | HConnectWallet => Call ConnectWithUI end] /\
  exists p, pending w' = pending w ++ [p] /\
            suspOrigin p = handlerOrigin h /\ ParkedOK p.
Proof.
  destruct h; cbn.
  - repeat split; try (rewrite app_nil_r; reflexivity).
    eexists. split; [reflexivity |]. split; [reflexivity |].
    split; [discriminate |].
    intros _ [l | e]; cbn; repeat constructor.
  - repeat split.
    eexists. split; [reflexivity |]. split; [reflexivity |].
    split; [discriminate |].
    intros _ [b | e]; cbn; repeat constructor.
Qed.

Lemma fireAll_quiet (b : bool) (cbs : list LogoutCallback) :
  Forall (eq loggedOutCallback) cbs ->
  forall w,
    issued (fireAll b cbs w) = issued w /\
    unhandled (fireAll b cbs w) = unhandled w /\
    (cbs <> [] -> b = true -> account (ui (fireAll b cbs w)) = JNull) /\
    exists new,
      spy (fireAll b cbs w) = spy w ++ new /\
      Forall (fun e => spyCall e = CallSetAccount JNull) new.
Proof.
  induction 1 as [| cb cbs <- _ IH]; intros w.
  - repeat split; try congruence. exists []. rewrite app_nil_r. auto.
  - destruct b.
    + change (fireAll true (loggedOutCallback :: cbs) w)
        with (fireAll true cbs (callSetter FromLoggedOutCallback (CallSetAccount JNull) w)).
      destruct (IH (callSetter FromLoggedOutCallback (CallSetAccount JNull) w))
        as (Hi & Hu & Ha & new & Hs & Hn).
      simpl in *. repeat split; auto.
      * intros _ _. destruct cbs as [| cb' cbs']; [reflexivity |].
        apply Ha; [discriminate | reflexivity].
      * eexists. rewrite Hs, <- app_assoc. split; [reflexivity |].
        constructor; [reflexivity | exact Hn].
    + change (fireAll false (loggedOutCallback :: cbs) w) with (fireAll false cbs w).
      destruct (IH w) as (Hi & Hu & Ha & Hn).
      repeat split; auto. discriminate.
Qed.

(** ** What holds after every sequence of events *)

Lemma Reach_mountWorld : Reach mountWorld.
Proof.
  destruct (boot_turn checkLoginStatus_boot freshWorld I)
    as (_ & _ & _ & _ & _ & H6).
  change (run_sync FromCheckLoginStatus checkLoginStatus freshWorld)
    with mountWorld in H6.
  destruct H6 as [(p & Hp & Ho & Hk & _) | (Hp & _)]; [| discriminate Hp].
  change (pending freshWorld ++ [p]) with [p] in Hp.
  unfold Reach.
  split; [reflexivity |].
  split; [constructor |].
  split; [reflexivity |].
  split; [constructor |].
  split; [rewrite Hp; repeat constructor; exact Hk |].
  left. unfold Booting.
  split; [reflexivity |].
  split; [reflexivity |].
  split; [reflexivity |].
  left. exists p. split; [exact Hp | exact Ho].
Qed.

Lemma nth_error_singleton (A : Type) (x y : A) (i : nat) :
  nth_error [x] i = Some y -> i = 0 /\ x = y.
Proof.
  destruct i as [| i]; simpl.
  - intros H. injection H as ->. auto.
  - destruct i; discriminate.
Qed.

Lemma step_Reach (e : Event) (w : World) :
  Reach w ->
  Reach (step e w) /\
  (loading (ui w) = false -> loading (ui (step e w)) = false).
Proof.
  intros HR. pose proof HR as (Hun & Hcb & Hlen & Hspy & Hpend & Hstage).
  destruct e as [i r | h | | b]; simpl.
  - (* a promise settles *)
    unfold settle.
    destruct (nth_error (pending w) i) as [[o R c k] |] eqn:En; [| auto].
    destruct (decode c r) as [out |]; [| auto].
    pose proof (nth_error_In _ _ En) as Hin.
    pose proof Hpend as Hall. rewrite Forall_forall in Hall.
    destruct (Hall _ Hin) as [Hb Hq].
    destruct (Origin_eq_dec o) as [-> | Ho].
    + destruct Hstage as [(Hui & Hsp & Hc0 & [(p & Hp & Hop) | (Hp & Hm)]) | (Hl & Hover)].
      * rewrite Hp in En. apply nth_error_singleton in En. destruct En as [-> _].
        rewrite Hp. change (remove_nth 0 [p]) with (@nil Suspended).
        set (w0 := setPending [] w).
        destruct (boot_turn (Hb eq_refl out) w0 I)
          as (H1 & H2 & H3 & H4 & (new & H5 & H5') & H6).
        assert (Hst :
                  Forall ParkedOK (pending (run_sync FromCheckLoginStatus (k out) w0)) /\
                  (Booting (run_sync FromCheckLoginStatus (k out) w0) \/
                   Settled (run_sync FromCheckLoginStatus (k out) w0))).
        { destruct H6 as [(p' & Hp' & Ho' & Hk' & Hui' & Hsp' & _) | (Hp' & Hmt & Hmf)].
          - split; [rewrite Hp'; repeat constructor; exact Hk' |].
            left. unfold Booting. rewrite Hui', Hsp', H2, Hp'.
            repeat split; auto. left. exists p'. auto.
          - split; [rewrite Hp'; constructor |].
            assert (E : isMounted w = true \/ isMounted w = false)
              by (destruct (isMounted w); auto).
            destruct E as [E | E].
            + right. split; [apply Hmt; exact E |].
              unfold CheckOver. rewrite Hp'. constructor.
            + left. destruct (Hmf E) as [Hui' Hsp'].
              unfold Booting. rewrite Hui', Hsp', H2, Hp'.
              repeat split; auto. right. split; [reflexivity |].
              rewrite run_sync_isMounted. exact E. }
        destruct Hst as [Hst1 Hst2].
        split; [| exact H4].
        unfold Reach. rewrite H1, H2, H3, H5.
        repeat split; auto.
        apply Forall_app. split; [exact Hspy | exact H5'].
      * rewrite Hp in En. destruct i; discriminate En.
      * unfold CheckOver in Hover. rewrite Forall_forall in Hover.
        specialize (Hover _ Hin). simpl in Hover. congruence.
    + destruct Hstage as [(Hui & Hsp & Hc0 & [(p & Hp & Hop) | (Hp & Hm)]) | (Hl & Hover)].
      * rewrite Hp in En. apply nth_error_singleton in En. destruct En as [_ ->].
        simpl in Hop. congruence.
      * rewrite Hp in En. destruct i; discriminate En.
      * set (w0 := setPending (remove_nth i (pending w)) w).
        destruct (quiet_turn o (Hq Ho out) w0)
          as (H1 & H2 & H3 & H4 & H5 & new & H6 & H6').
        split; [| intros _; rewrite H5; exact Hl].
        unfold Reach, Settled, CheckOver. rewrite H1, H2, H3, H4, H5, H6.
        subst w0. simpl.
        repeat split; auto.
        -- apply Forall_app. split; [exact Hspy |].
           eapply Forall_impl; [| exact H6'].
           intros e [v Hv]. unfold spyOK. rewrite Hv. exact I.
        -- apply Forall_remove_nth. exact Hpend.
        -- right. split; [exact Hl | apply Forall_remove_nth; exact Hover].
  - (* a click *)
    unfold click.
    destruct (isMounted w && offers h (render (ui w))) eqn:E; [| auto].
    destruct Hstage as [(Hui & _) | (Hl & Hover)].
    + rewrite Hui in E. destruct h; cbn in E;
        rewrite andb_false_r in E; discriminate E.
    + destruct (handler_turn h w)
        as (H1 & H2 & H3 & H4 & H5 & H6 & p & H7 & H8 & H9).
      cbn zeta in *.
      split; [| intros _; rewrite H1; exact Hl].
      unfold Reach, Settled, CheckOver. rewrite H1, H2, H3, H5, H6, H7.
      repeat split; auto.
      * apply Forall_app. split; [exact Hcb |].
        destruct h; repeat constructor.
      * rewrite length_app, logoutCalls_app, Hlen.
        destruct h; reflexivity.
      * apply Forall_app. split; [exact Hpend | repeat constructor; exact H9].
      * right. split; [exact Hl |].
        apply Forall_app. split; [exact Hover |].
        repeat constructor. rewrite H8. destruct h; discriminate.
  - (* unmount *)
    split; [| auto].
    unfold Reach. simpl. repeat split; auto.
    destruct Hstage as [(Hui & Hsp & Hc0 & Hp) | Hs]; [| right; exact Hs].
    left. unfold Booting. simpl. repeat split; auto.
    destruct Hp as [Hp | [Hp _]]; [left; exact Hp | right; auto].
  - (* the logged-out callbacks fire *)
    unfold fireLoggedOut.
    destruct (fireAll_frame b (callbacks w) w) as (F1 & F2 & F3 & _).
    destruct (fireAll_quiet b Hcb w) as (F4 & F5 & _ & new & F6 & F6').
    destruct (fireAll_same b Hcb w) as [F7 _].
    split; [| intros Hl; rewrite F7; exact Hl].
    destruct Hstage as [(Hui & Hsp & Hc0 & Hp) | (Hl & Hover)].
    + rewrite Hc0. exact HR.
    + unfold Reach, Settled, CheckOver. rewrite F1, F3, F4, F5, F6, F7.
      repeat split; auto.
      apply Forall_app. split; [exact Hspy |].
      eapply Forall_impl; [| exact F6'].
      intros e Hv. unfold spyOK. rewrite Hv. exact I.
Qed.

Lemma run_Reach (evs : list Event) :
  forall w, Reach w -> Reach (run evs w).
Proof.
  induction evs as [| e evs IH]; intros w Hw; simpl.
  - exact Hw.
  - apply IH. apply step_Reach. exact Hw.
Qed.

Lemma run_keeps_loading_false (evs : list Event) :
  forall w,
    Reach w -> loading (ui w) = false -> loading (ui (run evs w)) = false.
Proof.
  induction evs as [| e evs IH]; intros w Hw Hl; simpl.
  - exact Hl.
  - destruct (step_Reach e Hw) as [Hr Hk]. apply IH; auto.
Qed.

Lemma UiState_eta (s : UiState) :
  s = {| account := account s; loading := loading s |}.
Proof. destruct s; reflexivity. Qed.

Lemma fireAll_ui (b : bool) (cbs : list LogoutCallback) (w : World) :
  Forall (eq loggedOutCallback) cbs ->
  ui (fireAll b cbs w) =
  if b then
    match cbs with
    | [] => ui w
    | _ :: _ => {| account := JNull; loading := loading (ui w) |}
    end
  else ui w.
Proof.
  intros Hc.
  destruct (fireAll_same b Hc w) as [Hl Hf].
  destruct (fireAll_quiet b Hc w) as (_ & _ & Ha & _).
  destruct b.
  - destruct cbs as [| cb cbs]; [reflexivity |].
    rewrite (UiState_eta (ui (fireAll true (cb :: cbs) w))).
    rewrite Hl, Ha; [reflexivity | discriminate | reflexivity].
  - apply Hf. reflexivity.
Qed.

Lemma fireAll_spy (cbs : list LogoutCallback) :
  Forall (eq loggedOutCallback) cbs ->
  forall w,
    spy (fireAll true cbs w) =
    spy w ++ repeat {| spyOrigin := FromLoggedOutCallback;
                       spyCall := CallSetAccount JNull;
                       spyMounted := isMounted w |} (length cbs).
Proof.
  induction 1 as [| cb cbs <- _ IH]; intros w.
  - simpl. rewrite app_nil_r. reflexivity.
  - change (fireAll true (loggedOutCallback :: cbs) w)
      with (fireAll true cbs (callSetter FromLoggedOutCallback (CallSetAccount JNull) w)).
    rewrite IH. simpl. rewrite <- app_assoc. reflexivity.
Qed.

Lemma remove_nth_middle (A : Type) (pre post : list A) (x : A) :
  remove_nth (length pre) (pre ++ x :: post) = pre ++ post.
Proof.
  unfold remove_nth.
  induction pre as [| a pre IH]; simpl.
  - reflexivity.
  - f_equal. exact IH.
Qed.

Lemma nth_error_middle (A : Type) (pre post : list A) (x : A) :
  nth_error (pre ++ x :: post) (length pre) = Some x.
Proof.
  rewrite nth_error_app2 by lia.
  rewrite Nat.sub_diag. reflexivity.
Qed.

Lemma settle_at (o : Origin) (R : Type) (c : SdkCall R)
      (k : Outcome R -> Flow unit) (pre post : list Suspended)
      (w : World) (r : Response) (out : Outcome R) :
  pending w = pre ++ Susp o c k :: post ->
  decode c r = Some out ->
  settle (length pre) r w = run_sync o (k out) (setPending (pre ++ post) w).
Proof.
  intros Hp Hd. unfold settle. rewrite Hp.
  rewrite nth_error_middle, Hd, remove_nth_middle.
  reflexivity.
Qed.

(** ** Properties of every run *)

(** X1. No error ever escapes: whatever the user and the SDK do after
    mount, no rejection of any of the three handlers is left unhandled. *)
Theorem no_unhandled_rejection (evs : list Event) :
  unhandled (run evs mountWorld) = [].
Proof.
  apply (run_Reach evs Reach_mountWorld).
Qed.

(** X2. Once [loading] is false it stays false: nothing that can happen
    afterwards brings the loading view back. *)
Theorem loading_never_returns (evs more : list Event) :
  loading (ui (run evs mountWorld)) = false ->
  loading (ui (run (evs ++ more) mountWorld)) = false.
Proof.
  intros Hl. rewrite run_app.
  apply run_keeps_loading_false; [| exact Hl].
  apply (run_Reach evs Reach_mountWorld).
Qed.

Lemma loading_never_returns_witness :
  loading
    (ui (run ([EvSettle 0 (RespBool false)] ++
              [EvClick HConnectWallet; EvSettle 0 (RespAccounts ["0xDEF"]);
               EvClick HLogout; EvUserLoggedOut true]) mountWorld)) = false.
Proof.
  apply (loading_never_returns [EvSettle 0 (RespBool false)]).
  reflexivity.
Defined.

(** X3. As long as [loading] is true nothing has happened yet: both cells
    hold their initial values, no setter has been called, no callback is
    registered, and at most one flow (the session check) is parked. *)
Theorem nothing_happens_while_loading (evs : list Event) :
  loading (ui (run evs mountWorld)) = true ->
  ui (run evs mountWorld) = initialState /\
  spy (run evs mountWorld) = [] /\
  callbacks (run evs mountWorld) = [] /\
  length (pending (run evs mountWorld)) <= 1.
Proof.
  intros Hl.
  destruct (run_Reach evs Reach_mountWorld) as (_ & _ & _ & _ & _ & Hs).
  destruct Hs as [(Hui & Hsp & Hc & Hp) | (Hf & _)]; [| congruence].
  repeat split; auto.
  destruct Hp as [(p & -> & _) | (-> & _)]; simpl; lia.
Qed.

Lemma nothing_happens_while_loading_witness :
  spy (run [EvSettle 0 (RespBool true); EvClick HConnectWallet; EvUserLoggedOut true]
           mountWorld) = [].
Proof.
  apply (nothing_happens_while_loading
           [EvSettle 0 (RespBool true); EvClick HConnectWallet; EvUserLoggedOut true]).
  reflexivity.
Defined.

Lemma loading_means_initial (evs : list Event) :
  loading (ui (run evs mountWorld)) = true ->
  ui (run evs mountWorld) = initialState.
Proof.
  intros Hl.
  destruct (run_Reach evs Reach_mountWorld) as (_ & _ & _ & _ & _ & Hs).
  destruct Hs as [(Hui & _) | (Hf & _)]; [exact Hui | congruence].
Qed.

(** X4. While [loading] is true a click starts nothing: neither handler
    can run before the session check has cleared [loading]. *)
Theorem no_click_while_loading (evs : list Event) (h : Handler) :
  loading (ui (run evs mountWorld)) = true ->
  step (EvClick h) (run evs mountWorld) = run evs mountWorld.
Proof.
  intros Hl.
  pose proof (loading_means_initial evs Hl) as Hui.
  simpl. unfold click. rewrite Hui.
  destruct h; cbn; rewrite andb_false_r; reflexivity.
Qed.

Lemma no_click_while_loading_witness :
  step (EvClick HLogout) (run [EvSettle 0 (RespBool true)] mountWorld) =
  run [EvSettle 0 (RespBool true)] mountWorld.
Proof.
  apply (no_click_while_loading [EvSettle 0 (RespBool true)] HLogout).
  reflexivity.
Defined.

(** X5. On a mounted component [loading] is true exactly while the session
    check is parked at one of its [await]s. *)
Theorem loading_tracks_check (evs : list Event) :
  isMounted (run evs mountWorld) = true ->
  loading (ui (run evs mountWorld)) = checkPending (run evs mountWorld).
Proof.
  intros Hm.
  destruct (run_Reach evs Reach_mountWorld) as (_ & _ & _ & _ & _ & Hs).
  destruct Hs as [(Hui & _ & _ & Hp) | (Hf & Hover)].
  - rewrite Hui. destruct Hp as [(p & Hp & Ho) | (_ & Hu)]; [| congruence].
    unfold checkPending. rewrite Hp. simpl. rewrite Ho. reflexivity.
  - rewrite Hf. symmetry. apply CheckOver_not_pending. exact Hover.
Qed.

Lemma loading_tracks_check_witness :
  loading (ui (run [EvSettle 0 (RespBool true); EvSettle 0 (RespReject (Error "offline"))]
                   mountWorld)) =
  checkPending (run [EvSettle 0 (RespBool true); EvSettle 0 (RespReject (Error "offline"))]
                    mountWorld).
Proof.
  apply (loading_tracks_check
           [EvSettle 0 (RespBool true); EvSettle 0 (RespReject (Error "offline"))]).
  reflexivity.
Defined.

(** X6. [setLoading] is only ever called by the session check, and only
    with [false]. *)
Theorem setLoading_only_false (evs : list Event) :
  Forall spyOK (spy (run evs mountWorld)).
Proof.
  apply (run_Reach evs Reach_mountWorld).
Qed.

(** X7. When the SDK fires the logged-out callbacks: with [false] both
    cells are unchanged; with [true] [loading] is unchanged, and [account]
    becomes [null] if [logout] has been clicked at least once and is
    unchanged otherwise. *)
Theorem loggedOut_firing (evs : list Event) (b : bool) :
  ui (step (EvUserLoggedOut b) (run evs mountWorld)) =
  if b then
    match callbacks (run evs mountWorld) with
    | [] => ui (run evs mountWorld)
    | _ :: _ => {| account := JNull; loading := loading (ui (run evs mountWorld)) |}
    end
  else ui (run evs mountWorld).
Proof.
  destruct (run_Reach evs Reach_mountWorld) as (_ & Hc & _).
  simpl. unfold fireLoggedOut. apply fireAll_ui. exact Hc.
Qed.

(** X8. Callbacks pile up: every call of [magic.user.logout()] has left
    one callback registered and none is ever removed, so one firing with
    [true] calls [setAccount(null)] once per logout attempt made so far. *)
Theorem callbacks_pile_up (evs : list Event) :
  length (callbacks (run evs mountWorld)) = logoutCalls (issued (run evs mountWorld)) /\
  spy (step (EvUserLoggedOut true) (run evs mountWorld)) =
  spy (run evs mountWorld) ++
  repeat {| spyOrigin := FromLoggedOutCallback;
            spyCall := CallSetAccount JNull;
            spyMounted := isMounted (run evs mountWorld) |}
         (logoutCalls (issued (run evs mountWorld))).
Proof.
  destruct (run_Reach evs Reach_mountWorld) as (_ & Hc & Hl & _).
  split; [exact Hl |].
  simpl. unfold fireLoggedOut. rewrite <- Hl. apply fireAll_spy. exact Hc.
Qed.

(** ** The session check, outcome by outcome *)

(** X9. However the three promises of the session check settle, on a
    mounted component it ends with [loading] false, nothing parked and
    nothing unhandled.  [account] is set only when both promises resolve
    with equal addresses; a rejection of [isLoggedIn], [getInfo] or
    [getSigner] is logged with the rejection value itself; and the SDK
    calls stop at the first one that rejects or reports no session. *)
Theorem checkLoginStatus_outcomes (sc : CheckScript) :
  ui (run (scriptEvents sc) mountWorld) =
    {| account := scriptAccount sc; loading := false |} /\
  console (run (scriptEvents sc) mountWorld) = scriptConsole sc /\
  issued (run (scriptEvents sc) mountWorld) = scriptIssued sc /\
  pending (run (scriptEvents sc) mountWorld) = [] /\
  unhandled (run (scriptEvents sc) mountWorld) = [].
Proof.
  destruct sc as [e | | e | u e | u s];
    unfold run, mountWorld, step, settle; cbn -[String.eqb];
    try (repeat split; reflexivity).
  destruct (String.eqb (publicAddress u) (address s)); cbn; repeat split.
Qed.

(** X10. Teardown does not cancel the session check, it only silences its
    setters: after an unmount the check still issues the same SDK calls
    and logs the same errors as it would have, while both cells keep
    their initial values and no setter is called. *)
Theorem checkLoginStatus_after_unmount (sc : CheckScript) :
  issued (run (EvUnmount :: scriptEvents sc) mountWorld) = scriptIssued sc /\
  console (run (EvUnmount :: scriptEvents sc) mountWorld) = scriptConsole sc /\
  ui (run (EvUnmount :: scriptEvents sc) mountWorld) = initialState /\
  spy (run (EvUnmount :: scriptEvents sc) mountWorld) = [] /\
  pending (run (EvUnmount :: scriptEvents sc) mountWorld) = [].
Proof.
  destruct sc as [e | | e | u e | u s];
    unfold run, mountWorld, step, settle; cbn -[String.eqb];
    try (repeat split; reflexivity).
  destruct (String.eqb (publicAddress u) (address s)); cbn; repeat split.
Qed.

(** ** The handlers *)

Lemma connectWallet_parks (w : World) :
  exists k,
    (forall l, k (Resolved l) = SetAccount (js_index l 0) (Ret tt)) /\
    run_sync FromConnectWallet connectWallet w =
    suspend FromConnectWallet ConnectWithUI k w.
Proof.
  eexists. split; [| reflexivity].
  intros l. reflexivity.
Qed.

(** X11. Two Connect dialogs open at once race with no guard: whichever
    [connectWithUI] promise resolves last decides [account], in either
    order of settlement. *)
Theorem connectWallet_last_settled_wins (w : World) (l1 l2 : list string) :
  let n := length (pending w) in
  let both :=
    run_sync FromConnectWallet connectWallet
      (run_sync FromConnectWallet connectWallet w) in
  account (ui (settle n (RespAccounts l2) (settle n (RespAccounts l1) both))) =
    js_index l2 0 /\
  account (ui (settle n (RespAccounts l1) (settle (n + 1) (RespAccounts l2) both))) =
    js_index l1 0.
Proof.
  cbn zeta.
  destruct (connectWallet_parks w) as (k1 & Hk1 & ->).
  destruct (connectWallet_parks (suspend FromConnectWallet ConnectWithUI k1 w))
    as (k2 & Hk2 & ->).
  set (both := suspend FromConnectWallet ConnectWithUI k2
                 (suspend FromConnectWallet ConnectWithUI k1 w)).
  assert (Hp : pending both =
               pending w ++ Susp FromConnectWallet ConnectWithUI k1
                         :: [Susp FromConnectWallet ConnectWithUI k2]).
  { subst both. simpl. rewrite <- app_assoc. reflexivity. }
  split.
  - rewrite (@settle_at _ _ _ _ _ _ both (RespAccounts l1) (Resolved l1) Hp eq_refl).
    rewrite Hk1. cbn [run_sync].
    match goal with
    | |- context [settle _ _ ?W] =>
        rewrite (@settle_at FromConnectWallet _ ConnectWithUI k2 (pending w) []
                            W (RespAccounts l2) (Resolved l2) eq_refl eq_refl)
    end.
    rewrite Hk2. reflexivity.
  - assert (Hp' : pending both =
                  (pending w ++ [Susp FromConnectWallet ConnectWithUI k1])
                    ++ Susp FromConnectWallet ConnectWithUI k2 :: []).
    { rewrite Hp, <- app_assoc. reflexivity. }
    pose proof (@settle_at _ _ _ _ _ _ both (RespAccounts l2) (Resolved l2) Hp' eq_refl)
      as H2.
    rewrite length_app in H2. simpl length in H2. rewrite H2.
    rewrite Hk2. cbn [run_sync].
    match goal with
    | |- context [settle _ _ ?W] =>
        rewrite (@settle_at FromConnectWallet _ ConnectWithUI k1 (pending w) []
                            W (RespAccounts l1) (Resolved l1))
    end.
    + rewrite Hk1. reflexivity.
    + simpl. rewrite app_nil_r. reflexivity.
    + reflexivity.
Qed.

(** X12. When [magic.user.logout()] resolves, [logout] itself changes
    nothing: no setter is called and nothing is logged.  [account] is
    cleared only if and when the SDK fires the callback. *)
Theorem logout_resolution_changes_nothing (w : World) (b : bool) :
  let done := settle (length (pending w)) (RespBool b) (run_sync FromLogout logout w) in
  ui done = ui w /\
  spy done = spy w /\
  console done = console w /\
  unhandled done = unhandled w /\
  pending done = pending w /\
  callbacks done = callbacks w ++ [loggedOutCallback].
Proof.
  cbn zeta. unfold logout.
  cbn [run_sync try_catch bind Monad_Flow flow_bind await onUserLoggedOut].
  rewrite settle_parked with (out := Resolved b) by reflexivity.
  cbn. repeat split.
Qed.

(** X13. Connect, then Disconnect.  From the Disconnected view of a
    mounted component, a click on Connect whose dialog resolves with a
    non-empty first address leads to the Connected view showing the
    Disconnect button and the address line; a click on Disconnect followed
    by the callback firing with [true] leads back to a tree equal to the
    one rendered before. *)
Theorem connect_then_disconnect (w : World) (a : string) (rest : list string) :
  isMounted w = true ->
  loading (ui w) = false ->
  truthy (account (ui w)) = false ->
  Forall (eq loggedOutCallback) (callbacks w) ->
  a <> "" ->
  let n := length (pending w) in
  let connected := run [EvClick HConnectWallet; EvSettle n (RespAccounts (a :: rest))] w in
  let back := run [EvClick HLogout; EvUserLoggedOut true] connected in
  ui connected = {| account := JStr a; loading := false |} /\
  showsDisconnect (render (ui connected)) = true /\
  showsAddressLine (render (ui connected)) = true /\
  showsConnect (render (ui connected)) = false /\
  ui back = {| account := JNull; loading := false |} /\
  render (ui back) = render (ui w).
Proof.
  intros Hm Hl Ht Hc Ha. cbn zeta.
  apply String.eqb_neq in Ha.
  assert (Hconn :
            run [EvClick HConnectWallet; EvSettle (length (pending w)) (RespAccounts (a :: rest))] w
            = callSetter FromConnectWallet (CallSetAccount (JStr a))
                (setPending (pending w) (run_sync FromConnectWallet connectWallet w))).
  { change (run [EvClick HConnectWallet;
                 EvSettle (length (pending w)) (RespAccounts (a :: rest))] w)
      with (settle (length (pending w)) (RespAccounts (a :: rest))
                   (click HConnectWallet w)).
    unfold click.
    assert (Ho : offers HConnectWallet (render (ui w)) = true).
    { unfold offers, render. cbn. rewrite Hl, Ht. reflexivity. }
    rewrite Hm, Ho. cbn [andb handlerOrigin handlerFlow].
    unfold connectWallet.
    cbn [run_sync try_catch bind Monad_Flow flow_bind await].
    rewrite settle_parked with (out := Resolved (a :: rest)) by reflexivity.
    reflexivity. }
  rewrite Hconn.
  set (connected := callSetter FromConnectWallet (CallSetAccount (JStr a))
                      (setPending (pending w)
                         (run_sync FromConnectWallet connectWallet w))).
  assert (Hui : ui connected = {| account := JStr a; loading := false |}).
  { subst connected. cbn. rewrite Hl. reflexivity. }
  assert (Hrender : showsDisconnect (render (ui connected)) = true /\
                    showsAddressLine (render (ui connected)) = true /\
                    showsConnect (render (ui connected)) = false).
  { rewrite Hui. cbn. rewrite Ha. cbn. repeat split. }
  destruct Hrender as (R1 & R2 & R3).
  assert (Hback : ui (run [EvClick HLogout; EvUserLoggedOut true] connected) =
                  {| account := JNull; loading := false |}).
  { change (run [EvClick HLogout; EvUserLoggedOut true] connected)
      with (fireLoggedOut true (click HLogout connected)).
    unfold click.
    change (offers HLogout (render (ui connected)))
      with (showsDisconnect (render (ui connected))).
    rewrite R1. change (isMounted connected) with (isMounted w). rewrite Hm.
    cbn [andb handlerOrigin handlerFlow].
    rewrite (fire_after_logout true connected Hc).
    rewrite Hui. reflexivity. }
  repeat split; auto.
  rewrite Hback. unfold render. cbn. rewrite Hl, Ht. cbn. reflexivity.
Qed.

Lemma connect_then_disconnect_witness :
  render
    (ui (run [EvClick HLogout; EvUserLoggedOut true]
           (run [EvClick HConnectWallet; EvSettle 0 (RespAccounts ["0xDEF"])]
                (run [EvSettle 0 (RespBool false)] mountWorld)))) =
  render (ui (run [EvSettle 0 (RespBool false)] mountWorld)).
Proof.
  apply (@connect_then_disconnect (run [EvSettle 0 (RespBool false)] mountWorld)
           "0xDEF" []);
    try reflexivity.
  - constructor.
  - discriminate.
Defined.

(** ** Rendering and startup, the remaining cases *)

(** X14. [null], [undefined] and the empty string are one and the same to
    the component: any two falsy accounts render the same tree, whatever
    [loading] is. *)
Theorem render_falsy_alike (a b : JsVal) (l : bool) :
  truthy a = false ->
  truthy b = false ->
  render {| account := a; loading := l |} = render {| account := b; loading := l |}.
Proof.
  intros Ha Hb. unfold render. cbn. rewrite Ha, Hb. reflexivity.
Qed.

Lemma render_falsy_alike_witness :
  render {| account := JStr ""; loading := false |} =
  render {| account := JNull; loading := false |}.
Proof.
  apply (render_falsy_alike (JStr "") JNull false); reflexivity.
Defined.

(** X15. With a non-empty key, evaluating the module throws nothing: the
    Magic client is constructed with that very key and with
    [useStorageCache] on, the provider after it, and the component is
    defined and exported last. *)
Theorem startup_success (env : Startup.Env) (k : string) :
  Startup.REACT_APP_MAGIC_API_KEY env = Some k ->
  k <> "" ->
  Startup.moduleInit env =
    {| Startup.performed :=
         [Startup.NewMagic k true; Startup.NewBrowserProvider;
          Startup.DefineApp; Startup.ExportDefaultApp];
       Startup.thrown := None |} /\
  Startup.client_constructed (Startup.moduleInit env) = true /\
  Startup.app_available (Startup.moduleInit env) = true.
Proof.
  intros Hk Hne. apply String.eqb_neq in Hne.
  unfold Startup.moduleInit, Startup.key_missing, Startup.key_value.
  rewrite Hk, Hne. repeat split.
Qed.

Lemma startup_success_witness :
  Startup.app_available
    (Startup.moduleInit {| Startup.REACT_APP_MAGIC_API_KEY := Some "pk_live_1" |}) = true.
Proof.
  apply (@startup_success {| Startup.REACT_APP_MAGIC_API_KEY := Some "pk_live_1" |}
                          "pk_live_1").
  - reflexivity.
  - discriminate.
Defined.

(** ** The three views *)

(** C9 as amended.  As a function of an arbitrary pair (loading, account):
    the loading indicator is rendered exactly when [loading] holds; the
    address line exactly when [loading] is false and [account] is truthy,
    and the address it prints is the account itself and nothing else; the
    Connect button exactly when [loading] is false and [account] is falsy
    ([null], [undefined] or the empty string); the Disconnect button
    exactly when [account] is truthy.  In every state a run reaches,
    [loading] true leaves [account] at [null], so there the Disconnect
    button is rendered exactly when [loading] is false and [account] is
    truthy, that is, together with the address line and never with the
    indicator or the Connect button. *)
Theorem render_views (s : UiState) (evs : list Event) :
  (showsLoadingIndicator (render s) = loading s /\
   showsAddressLine (render s) = negb (loading s) && truthy (account s) /\
   addressLines (render s) =
     match account s with
     | JStr a => if negb (loading s) && truthy (JStr a) then [a] else []
     | JNull | JUndefined => []
     end /\
   showsConnect (render s) = negb (loading s) && negb (truthy (account s)) /\
   showsDisconnect (render s) = truthy (account s)) /\
  showsDisconnect (render (ui (run evs mountWorld))) =
    negb (loading (ui (run evs mountWorld))) &&
    truthy (account (ui (run evs mountWorld))) /\
  showsDisconnect (render (ui (run evs mountWorld))) =
    showsAddressLine (render (ui (run evs mountWorld))).
Proof.
  assert (Hpure : forall t : UiState,
             showsLoadingIndicator (render t) = loading t /\
             showsAddressLine (render t) = negb (loading t) && truthy (account t) /\
             addressLines (render t) =
               match account t with
               | JStr a => if negb (loading t) && truthy (JStr a) then [a] else []
               | JNull | JUndefined => []
               end /\
             showsConnect (render t) = negb (loading t) && negb (truthy (account t)) /\
             showsDisconnect (render t) = truthy (account t)).
  { intros [[| | a] [|]]; cbn; try (repeat split; reflexivity).
    - destruct (String.eqb a ""); cbn; repeat split; reflexivity.
    - destruct (String.eqb a ""); cbn; repeat split; reflexivity. }
  split; [apply Hpure |].
  destruct (Hpure (ui (run evs mountWorld))) as (_ & Ha & _ & _ & Hd).
  destruct (loading (ui (run evs mountWorld))) eqn:Hl.
  - rewrite (loading_means_initial evs Hl) in *. split; reflexivity.
  - rewrite Ha, Hd. split; reflexivity.
Qed.

(** C9 as worded fails on an empty address.  No session is found, the
    user clicks Connect, and [connectWithUI] resolves with the empty
    string as its first entry: [loading] is false and an account is
    present, which is the Connected state as the specification words it,
    yet the component renders the Connect button and neither the
    Disconnect button nor the address line. *)
Lemma render_connect_with_empty_account :
  let w := run [EvSettle 0 (RespBool false); EvClick HConnectWallet;
                EvSettle 0 (RespAccounts [""])] mountWorld in
  ui w = {| account := JStr ""; loading := false |} /\
  specView (ui w) = Connected /\
  showsConnect (render (ui w)) = true /\
  showsDisconnect (render (ui w)) = false /\
  showsAddressLine (render (ui w)) = false.
Proof.
  cbn. repeat split.
Qed.
